(** * redact_phi: pixel normalization, box merging and redaction

    A shallow embedding of [src/redact_phi/redact_phi.py] and the
    properties its specification states about it.

    Conventions of the model
    - Python [int] is [Z]; a NumPy integer array is a record of its dtype,
      its shape and its flat row-major buffer of [Z] samples.
    - NumPy [float64] values are modelled by exact rationals [Q]; a
      division whose denominator is zero (NumPy: nan or inf, then an
      unspecified integer after [astype]) ends the computation with
      [InvalidValue].  Module [Float64] evaluates the same expressions in
      binary64 at the inputs of the counterexamples.
    - Calls into OpenCV, pydicom and PaddleOCR are section variables. *)

From Stdlib Require Import String Ascii.
From Stdlib Require Import ZArith QArith Qround Qminmax Bool Lia.
From Stdlib Require Import List Permutation Sorted Floats.
Import ListNotations.
Open Scope Z_scope.

(* ================================================================= *)
(** ** Python and NumPy values *)

Module Py.

(** Exceptions that the modelled statements can raise.  [InvalidValue]
    marks a NumPy division by zero (a RuntimeWarning, not an exception):
    the samples computed from it are unspecified, and the model stops. *)
Inductive exn : Type :=
| IndexError
| ValueError
| cv2_error
| InvalidValue.

Inductive result (A : Type) : Type :=
| Ok (a : A)
| Raise (e : exn).
Arguments Ok {A} a.
Arguments Raise {A} e.

Definition bind {A B : Type} (r : result A) (k : A -> result B) : result B :=
  match r with
  | Ok a => k a
  | Raise e => Raise e
  end.

Fixpoint traverse {A B : Type} (f : A -> result B) (l : list A)
  : result (list B) :=
  match l with
  | [] => Ok []
  | a :: l' =>
      bind (f a) (fun b => bind (traverse f l') (fun bs => Ok (b :: bs)))
  end.

(** The built-in [sorted(l, key=...)], given the order on keys: Python's
    sort is stable, and a stable insertion sort returns the same list. *)
Section Sorted.
Context {A : Type} (le : A -> A -> bool).

Fixpoint insert_sorted (a : A) (l : list A) : list A :=
  match l with
  | [] => [a]
  | c :: l' => if le a c then a :: c :: l' else c :: insert_sorted a l'
  end.

Fixpoint sorted (l : list A) : list A :=
  match l with
  | [] => []
  | a :: rest => insert_sorted a (sorted rest)
  end.
End Sorted.

(** [enumerate]-style map. *)
Fixpoint mapi_from {A B : Type} (i : nat) (f : nat -> A -> B) (l : list A)
  : list B :=
  match l with
  | [] => []
  | a :: l' => f i a :: mapi_from (S i) f l'
  end.

Definition mapi {A B : Type} (f : nat -> A -> B) (l : list A) : list B :=
  mapi_from 0 f l.

(** [int(x)] on a float: truncation toward zero. *)
Definition int_of_float (q : Q) : Z := Z.quot (Qnum q) (Z.pos (Qden q)).

(** [s[a:b]] index normalisation for a sequence of length [n], step 1:
    a negative index counts from the end, and the result is clamped to
    [0, n]. *)
Definition slice_index (n i : Z) : Z :=
  if i <? 0 then Z.max 0 (i + n) else Z.min i n.

(** Characters that [str.strip()] removes (code points below 256). *)
Definition isspace (c : ascii) : bool :=
  let n := nat_of_ascii c in
  ((9 <=? n) && (n <=? 13) || (28 <=? n) && (n <=? 32)
   || (n =? 133) || (n =? 160))%nat.

(** Truth value of [text.strip()]. *)
Definition strip_nonempty (text : string) : bool :=
  negb (forallb isspace (list_ascii_of_string text)).

(** [sep.join(l)]. *)
Fixpoint join (sep : string) (l : list string) : string :=
  match l with
  | [] => EmptyString
  | [s] => s
  | s :: rest => (s ++ sep ++ join sep rest)%string
  end.

End Py.

Module Numpy.
Import Py.

Inductive dtype : Type := uint8 | uint16 | int16.

Definition dtype_eqb (a b : dtype) : bool :=
  match a, b with
  | uint8, uint8 | uint16, uint16 | int16, int16 => true
  | _, _ => false
  end.

(** Integer arithmetic of a dtype wraps around. *)
Definition wrap (dt : dtype) (z : Z) : Z :=
  match dt with
  | uint8 => z mod 256
  | uint16 => z mod 65536
  | int16 => (z + 32768) mod 65536 - 32768
  end.

(** [x.astype(dt)] and the cast of an assignment into an integer array:
    truncation toward zero, then the dtype's wrap-around. *)
Definition astype (dt : dtype) (q : Q) : Z := wrap dt (int_of_float q).

(** An integer array: dtype, shape and the row-major buffer. *)
Record ndarray : Type := mk_ndarray {
  dtype_of : dtype;
  shape : list nat;
  data : list Z
}.

Definition ndim (a : ndarray) : nat := length (shape a).

Definition size_of (sh : list nat) : nat := fold_right Nat.mul 1%nat sh.

Definition well_formed (a : ndarray) : Prop :=
  length (data a) = size_of (shape a).

(** [a.min()], [a.max()]: ValueError on an empty array. *)
Definition np_min (l : list Z) : result Z :=
  match l with
  | [] => Raise ValueError
  | v :: l' => Ok (fold_left Z.min l' v)
  end.

Definition np_max (l : list Z) : result Z :=
  match l with
  | [] => Raise ValueError
  | v :: l' => Ok (fold_left Z.max l' v)
  end.

Definition np_minq (l : list Q) : result Q :=
  match l with
  | [] => Raise ValueError
  | v :: l' => Ok (fold_left Qmin l' v)
  end.

Definition np_maxq (l : list Q) : result Q :=
  match l with
  | [] => Raise ValueError
  | v :: l' => Ok (fold_left Qmax l' v)
  end.

(** [np.clip(v, lower, upper)] is [minimum(maximum(v, lower), upper)]. *)
Definition np_clip (v lower upper : Q) : Q := Qmin (Qmax v lower) upper.

(** True division of floats. *)
Definition np_divide (a b : Q) : result Q :=
  if Qeq_bool b 0 then Raise InvalidValue else Ok (a / b)%Q.

(** [np.median] of a flat buffer: the middle sample of the sorted buffer,
    or the mean of the two middle samples.  Of an empty buffer NumPy
    returns nan; no sample is ever written in that case and the model
    returns 0. *)
Definition np_median (l : list Z) : Q :=
  let s := sorted Z.leb l in
  let n := length l in
  if Nat.even n
  then (inject_Z (nth (n / 2 - 1) s 0%Z + nth (n / 2) s 0%Z) / 2)%Q
  else inject_Z (nth (n / 2) s 0%Z).

(** The number of samples below and above a value: the vocabulary in
    which the middle sample of a sorted buffer is characterised. *)
Definition count_below (m : Z) (l : list Z) : nat :=
  length (filter (fun v => v <? m) l).

Definition count_above (m : Z) (l : list Z) : nat :=
  length (filter (fun v => m <? v) l).

(** [cv2.bitwise_not] on a uint8 sample. *)
Definition bitwise_not (v : Z) : Z := Z.lxor v 255.

End Numpy.

(* ================================================================= *)
(** ** Box Merger: [_merge_overlapping_boxes] *)

Module BoxMerger.
Import Py.

(** A box is the Python tuple [(x, y, w, h)]. *)
Definition box : Type := Z * Z * Z * Z.

(** [key=lambda b: (b[1], b[0])], compared as Python compares tuples. *)
Definition key (b : box) : Z * Z :=
  let '(x, y, _, _) := b in (y, x).

Definition key_le (a b : box) : bool :=
  let '(ay, ax) := key a in
  let '(by_, bx) := key b in
  (ay <? by_) || ((ay =? by_) && (ax <=? bx)).

Definition has_key (k : Z * Z) (b : box) : bool :=
  (fst (key b) =? fst k) && (snd (key b) =? snd k).

(** The test of lines 411-412. *)
Definition near (margin : Z) (b m : box) : bool :=
  let '(x, y, w, h) := b in
  let '(mx, my, mw, mh) := m in
  let x2 := x + w in
  let y2 := y + h in
  let mx2 := mx + mw in
  let my2 := my + mh in
  (x <=? mx2 + margin) && (x2 >=? mx - margin) &&
  (y <=? my2 + margin) && (y2 >=? my - margin).

(** Lines 414-418: the union bounding box. *)
Definition union_box (b m : box) : box :=
  let '(x, y, w, h) := b in
  let '(mx, my, mw, mh) := m in
  let x2 := x + w in
  let y2 := y + h in
  let mx2 := mx + mw in
  let my2 := my + mh in
  let new_x := Z.min x mx in
  let new_y := Z.min y my in
  let new_x2 := Z.max x2 mx2 in
  let new_y2 := Z.max y2 my2 in
  (new_x, new_y, new_x2 - new_x, new_y2 - new_y).

(** The inner [for i, ... in enumerate(merged)] loop: the first box that is
    near [b] is replaced in place, and the loop breaks.  [None] is
    [merged_into = False]. *)
Fixpoint merge_into (margin : Z) (b : box) (merged : list box)
  : option (list box) :=
  match merged with
  | [] => None
  | m :: rest =>
      if near margin b m then Some (union_box b m :: rest)
      else match merge_into margin b rest with
           | Some rest' => Some (m :: rest')
           | None => None
           end
  end.

(** One iteration of the outer loop. *)
Definition merge_step (margin : Z) (merged : list box) (b : box) : list box :=
  match merge_into margin b merged with
  | Some merged' => merged'
  | None => merged ++ [b]
  end.

Definition _merge_overlapping_boxes (boxes : list box) (margin : Z) : list box :=
  match boxes with
  | [] => []
  | _ => fold_left (merge_step margin) (sorted key_le boxes) []
  end.

(** Geometry used to state coverage. *)
Definition positive (b : box) : Prop :=
  let '(_, _, w, h) := b in 0 < w /\ 0 < h.

Definition nonneg_origin (b : box) : Prop :=
  let '(x, y, _, _) := b in 0 <= x /\ 0 <= y.

Definition contained (b m : box) : Prop :=
  let '(x, y, w, h) := b in
  let '(mx, my, mw, mh) := m in
  mx <= x /\ my <= y /\ x + w <= mx + mw /\ y + h <= my + mh.

Definition covered (b : box) (l : list box) : Prop :=
  exists m, In m l /\ contained b m.

End BoxMerger.

(* ================================================================= *)
(** ** Detections *)

Module Detection.
Import Py BoxMerger.

(** The first component of a detection tuple: [None], a list or tuple of
    points [pt] read as [pt[0]], [pt[1]], or any other object (for which
    [isinstance(bbox, (list, tuple))] is false). *)
Inductive bbox : Type :=
| NoBox
| Points (pts : list (Q * Q))
| OtherObject.

(** [(bbox, text, confidence)]. *)
Definition detection : Type := bbox * string * Q.

(** No point of the polygon has a negative coordinate. *)
Definition nonneg_polygon (d : detection) : Prop :=
  match fst (fst d) with
  | Points pts => Forall (fun p : Q * Q => (0 <= fst p)%Q /\ (0 <= snd p)%Q) pts
  | _ => True
  end.

(** Lines 274-284 of [extract_text_from_dicom]. *)
Definition no_text_placeholder : string := "(No text detected)".

Definition extracted_text (primary_detections : list detection) : string :=
  let all_text :=
    flat_map (fun d : detection =>
                let '(_, text, _) := d in
                if strip_nonempty text then [text] else [])
             primary_detections in
  match all_text with
  | [] => no_text_placeholder
  | _ => join " " all_text
  end.

(** Lines 354-366 of [redact_text_regions] for one detection: [None] is
    [continue] or a box that is not appended. *)
Definition detection_box (d : detection) : option box :=
  let '(bb, text, _) := d in
  if negb (strip_nonempty text) then None
  else
    match bb with
    | Points ((px, py) :: rest) =>
        if (length ((px, py) :: rest) <? 4)%nat then None
        else
          let x_coords := map fst rest in
          let y_coords := map snd rest in
          let x_min := int_of_float (fold_left Qmin x_coords px) in
          let x_max := int_of_float (fold_left Qmax x_coords px) in
          let y_min := int_of_float (fold_left Qmin y_coords py) in
          let y_max := int_of_float (fold_left Qmax y_coords py) in
          let w := x_max - x_min in
          let h := y_max - y_min in
          if (0 <? w) && (0 <? h) then Some (x_min, y_min, w, h) else None
    | _ => None
    end.

(** The boxes collected by the loop; [if detections:] is false for [None]
    and for the empty list. *)
Definition collect_boxes (detections : option (list detection)) : list box :=
  match detections with
  | None => []
  | Some l =>
      flat_map (fun d => match detection_box d with
                         | Some b => [b]
                         | None => []
                         end) l
  end.

End Detection.

(* ================================================================= *)
(** ** Redactor: [redact_text_regions] *)

Module Redactor.
Import Py Numpy BoxMerger Detection.

(** The fill colour: one value per channel for a 3-D array, one scalar
    otherwise, already cast to the dtype of the image. *)
Inductive fill : Type :=
| Scalar (v : Z)
| PerChannel (vs : list Z).

Definition fill_at (f : fill) (k : nat) : Z :=
  match f with
  | Scalar v => v
  | PerChannel vs => nth k vs 0
  end.

(** The samples of channel [k] of a buffer with [c] interleaved channels. *)
Definition channel (c k : nat) (buf : list Z) : list Z :=
  flat_map (fun p : nat * Z => if (fst p mod c =? k)%nat then [snd p] else [])
           (combine (seq 0 (length buf)) buf).

(** Lines 343-349. *)
Definition median_val (image : ndarray) : fill :=
  match shape image with
  | [_; _; c] =>
      PerChannel
        (map (fun k => astype (dtype_of image) (np_median (channel c k (data image))))
             (seq 0 c))
  | _ => Scalar (astype (dtype_of image) (np_median (data image)))
  end.

(** Row and column of the sample at position [i] of the buffer of an
    array of shape [(h, w, ...)] with [inner] samples per pixel. *)
Definition row_of (w inner i : nat) : Z := Z.of_nat (i / inner / w).
Definition col_of (w inner i : nat) : Z := Z.of_nat ((i / inner) mod w).

(** Whether NumPy's slice [y1:y2, x1:x2] of an [h] by [w] array selects
    the pixel [(r, c)]. *)
Definition in_slice (h w : nat) (y1 y2 x1 x2 r c : Z) : bool :=
  (slice_index (Z.of_nat h) y1 <=? r) && (r <? slice_index (Z.of_nat h) y2) &&
  (slice_index (Z.of_nat w) x1 <=? c) && (c <? slice_index (Z.of_nat w) x2).

(** [a[y1:y2, x1:x2] = val]. *)
Definition setitem_rect (a : ndarray) (y1 y2 x1 x2 : Z) (val : fill) : ndarray :=
  match shape a with
  | h :: w :: rest =>
      let inner := size_of rest in
      mk_ndarray (dtype_of a) (shape a)
        (mapi (fun i v =>
                 if in_slice h w y1 y2 x1 x2 (row_of w inner i) (col_of w inner i)
                 then fill_at val (i mod inner)
                 else v)
              (data a))
  | _ => a
  end.

(** Lines 371-376: one iteration of the painting loop. *)
Definition paint (padding : Z) (h w : nat) (val : fill)
           (redacted : ndarray) (b : box) : ndarray :=
  let '(x, y, bw, bh) := b in
  let x1 := Z.max 0 (x - padding) in
  let y1 := Z.max 0 (y - padding) in
  let x2 := Z.min (Z.of_nat w) (x + bw + padding) in
  let y2 := Z.min (Z.of_nat h) (y + bh + padding) in
  setitem_rect redacted y1 y2 x1 x2 val.

(** Whether the slice written for box [b] selects position [i] of the
    buffer, and whether the slice of some box of a list does. *)
Definition selects (padding : Z) (h w inner : nat) (b : box) (i : nat) : bool :=
  let '(x, y, bw, bh) := b in
  in_slice h w
    (Z.max 0 (y - padding)) (Z.min (Z.of_nat h) (y + bh + padding))
    (Z.max 0 (x - padding)) (Z.min (Z.of_nat w) (x + bw + padding))
    (row_of w inner i) (col_of w inner i).

Definition painted (padding : Z) (h w inner : nat) (boxes : list box) (i : nat)
  : bool :=
  existsb (fun b => selects padding h w inner b i) boxes.

(** Lines 351-369: the rectangles that are painted. *)
Definition redaction_boxes (detections : option (list detection)) : list box :=
  match collect_boxes detections with
  | [] => []
  | boxes => _merge_overlapping_boxes boxes 5
  end.

(** [redact_text_regions(image, detections, padding)].  [image.shape[1]]
    raises IndexError when there is a box to paint and the array has
    fewer than two axes. *)
Definition redact_text_regions (image : ndarray)
           (detections : option (list detection)) (padding : Z)
  : result ndarray :=
  let redacted := image in
  let val := median_val image in
  match redaction_boxes detections with
  | [] => Ok redacted
  | boxes =>
      match shape image with
      | h :: w :: _ => Ok (fold_left (paint padding h w val) boxes redacted)
      | _ => Raise IndexError
      end
  end.

(** The rectangle of a box expanded by [padding] on all sides. *)
Definition in_expanded (padding : Z) (b : box) (r c : Z) : Prop :=
  let '(x, y, bw, bh) := b in
  x - padding <= c < x + bw + padding /\ y - padding <= r < y + bh + padding.

(** The padded rectangle does not end left of or above the origin. *)
Definition nonneg_edges (padding : Z) (b : box) : Prop :=
  let '(x, y, bw, bh) := b in
  0 <= x + bw + padding /\ 0 <= y + bh + padding.

(** The same arrays as objects in a store: an object identity is a
    position in the store, [image.copy()] allocates a new object, and the
    painting loop writes to that object only. *)
Definition store : Type := list ndarray.

Definition copy (s : store) (obj : nat) : result (store * nat) :=
  match nth_error s obj with
  | Some a => Ok (s ++ [a], length s)
  | None => Raise ValueError
  end.

Fixpoint store_update (s : store) (obj : nat) (f : ndarray -> ndarray) : store :=
  match s, obj with
  | [], _ => []
  | a :: s', O => f a :: s'
  | a :: s', S n => a :: store_update s' n f
  end.

Definition redact_text_regions_obj (s : store) (image : nat)
           (detections : option (list detection)) (padding : Z)
  : result (store * nat) :=
  bind (copy s image) (fun '(s1, redacted) =>
  match nth_error s1 image with
  | None => Raise ValueError
  | Some img =>
      let val := median_val img in
      match redaction_boxes detections with
      | [] => Ok (s1, redacted)
      | boxes =>
          match shape img with
          | h :: w :: _ =>
              Ok (fold_left
                    (fun st b => store_update st redacted
                                   (fun a => paint padding h w val a b))
                    boxes s1,
                  redacted)
          | _ => Raise IndexError
          end
      end
  end).

End Redactor.

(* ================================================================= *)
(** ** The DICOM dataset as the pipeline reads it *)

Module Dicom.

(** The value of a numeric tag: a single number or a multi-valued
    element, of which the code takes element 0. *)
Inductive element : Type :=
| Single (v : Q)
| MultiValue (v0 : Q) (rest : list Q).

Definition first_value (e : element) : Q :=
  match e with
  | Single v => v
  | MultiValue v0 _ => v0
  end.

(** What [ds.get(tag)] returns for the tags that are read; [None] is an
    absent tag. *)
Record Dataset : Type := mk_dataset {
  SamplesPerPixel : option Z;
  BitsStored : option Z;
  WindowCenter : option element;
  WindowWidth : option element;
  PhotometricInterpretation : option string
}.

End Dicom.

(* ================================================================= *)
(** ** Frame Selector and Dynamic-Range Normalizer:
       [extract_text_from_dicom] *)

Module Pipeline.
Import Py Numpy Dicom BoxMerger Detection Redactor.

Inductive color_code : Type :=
| COLOR_RGB2BGR
| COLOR_RGBA2BGR
| COLOR_RGB2GRAY
| COLOR_RGBA2GRAY
| COLOR_GRAY2BGR.

(** [a[0]]. *)
Definition first_frame (a : ndarray) : result ndarray :=
  match shape a with
  | S _ :: rest => Ok (mk_ndarray (dtype_of a) rest (firstn (size_of rest) (data a)))
  | _ => Raise IndexError
  end.

(** [a.shape[-1]]. *)
Definition last_axis (a : ndarray) : result nat :=
  match shape a with
  | [] => Raise IndexError
  | n :: rest => Ok (last rest n)
  end.

(** Lines 101-102. *)
Definition window_bounds (cw : Q * Q) : Q * Q :=
  let '(window_center, window_width) := cw in
  (window_center - window_width / 2, window_center + window_width / 2)%Q.

(** Lines 92-95: the window derived from the data. *)
Definition data_window (pixel_array : list Q) : result (Q * Q) :=
  bind (np_minq pixel_array) (fun min_val =>
  bind (np_maxq pixel_array) (fun max_val =>
  Ok (((min_val + max_val) / 2)%Q,
      if negb (Qle_bool max_val min_val) then (max_val - min_val)%Q else 1%Q))).

(** Lines 83-99: the window of the standard strategy. *)
Definition standard_window (ds : Dataset) (pixel_array : list Q)
  : result (Q * Q) :=
  match WindowCenter ds, WindowWidth ds with
  | Some c, Some w => Ok (first_value c, first_value w)
  | _, _ => data_window pixel_array
  end.

(** Lines 146-183: the window of the CLAHE strategy. *)
Definition clahe_window (ds : Dataset) : Q * Q :=
  let original_bits_stored :=
    match BitsStored ds with Some b => b | None => 8 end in
  match WindowCenter ds, WindowWidth ds with
  | Some c, Some w =>
      if 8 <? original_bits_stored then (128%Q, 256%Q)
      else (first_value c, first_value w)
  | _, _ => (128%Q, 256%Q)
  end.

(** Lines 103-106 and 192-193 for one sample:
    [((np.clip(v, lower, upper) - lower) / (upper - lower) * 255.0)
     .astype(np.uint8)]. *)
Definition rescale_window (lower upper : Q) (v : Q) : result Z :=
  let windowed := np_clip v lower upper in
  bind (np_divide (windowed - lower) (upper - lower)) (fun q =>
  Ok (astype uint8 (q * 255))).

(** Lines 128 and 217 for one sample, in the integer arithmetic of the
    array's dtype:
    [((a - min_val) / (max_val - min_val) * 255.0).astype(np.uint8)]. *)
Definition rescale_minmax (dt : dtype) (min_val max_val : Z) (v : Z) : result Z :=
  bind (np_divide (inject_Z (wrap dt (v - min_val)))
                  (inject_Z (wrap dt (max_val - min_val)))) (fun q =>
  Ok (astype uint8 (q * 255))).

(** Lines 109-110 and 196-197. *)
Definition apply_photometric (ds : Dataset) (image_8bit : list Z) : list Z :=
  match PhotometricInterpretation ds with
  | Some pi =>
      if String.eqb pi "MONOCHROME1" then map bitwise_not image_8bit
      else image_8bit
  | None => image_8bit
  end.

(** Lines 123-131. *)
Definition to_uint8_full_range (pixel_array : ndarray) : result ndarray :=
  let dt := dtype_of pixel_array in
  if dtype_eqb dt uint8 then Ok pixel_array
  else
    bind (np_min (data pixel_array)) (fun min_val =>
    bind (np_max (data pixel_array)) (fun max_val =>
    if min_val <? max_val then
      bind (traverse (rescale_minmax dt min_val max_val) (data pixel_array))
           (fun d => Ok (mk_ndarray uint8 (shape pixel_array) d))
    else
      Ok (mk_ndarray uint8 (shape pixel_array)
                     (map (wrap uint8) (data pixel_array))))).

(** Lines 214-219. *)
Definition contrast_stretch (enhanced : ndarray) : result ndarray :=
  bind (np_min (data enhanced)) (fun min_val =>
  bind (np_max (data enhanced)) (fun max_val =>
  if min_val <? max_val then
    bind (traverse (rescale_minmax (dtype_of enhanced) min_val max_val)
                   (data enhanced))
         (fun d => Ok (mk_ndarray uint8 (shape enhanced) d))
  else Ok enhanced)).

Section Extract.

(** The library calls: [cv2.cvtColor], pydicom's [apply_voi_lut], the
    CLAHE object's [apply], and [ocr.predict] followed by
    [_parse_ocr_results]. *)
Variable cvtColor : color_code -> ndarray -> result ndarray.
Variable apply_voi_lut : ndarray -> Dataset -> result (list Q).
Variable clahe_apply : ndarray -> result ndarray.
Variable ocr_detect : ndarray -> result (list detection).

Definition samples_per_pixel (ds : Dataset) : Z :=
  match SamplesPerPixel ds with Some n => n | None => 1 end.

(** Lines 40-62: the selected grayscale working array and, for a colour
    input, the BGR image kept for output. *)
Definition select_frame (ds : Dataset) (pixel_array : ndarray)
  : result (option ndarray * ndarray) :=
  if 1 <? samples_per_pixel ds then
    bind (if (3 <? ndim pixel_array)%nat then first_frame pixel_array
          else Ok pixel_array) (fun pixel_array =>
    bind (last_axis pixel_array) (fun channels =>
    bind (if (channels =? 3)%nat then
            bind (cvtColor COLOR_RGB2BGR pixel_array) (fun o => Ok (Some o))
          else if (channels =? 4)%nat then
            bind (cvtColor COLOR_RGBA2BGR pixel_array) (fun o => Ok (Some o))
          else Ok None) (fun image_for_output =>
    bind (if (channels =? 3)%nat then cvtColor COLOR_RGB2GRAY pixel_array
          else if (channels =? 4)%nat then cvtColor COLOR_RGBA2GRAY pixel_array
          else Ok pixel_array) (fun pixel_array =>
    Ok (image_for_output, pixel_array)))))
  else if (2 <? ndim pixel_array)%nat then
    bind (first_frame pixel_array) (fun pixel_array => Ok (None, pixel_array))
  else Ok (None, pixel_array).

(** Lines 73-80: the values that are windowed in the standard strategy. *)
Definition presentation_values (ds : Dataset) (pixel_array : ndarray)
  : list Q :=
  if samples_per_pixel ds =? 1 then
    match apply_voi_lut pixel_array ds with
    | Ok values => values
    | Raise _ => map inject_Z (data pixel_array)
    end
  else map inject_Z (data pixel_array).

(** Line 106: the windowed 8-bit samples, before the inversion. *)
Definition standard_windowed (ds : Dataset) (pixel_array : ndarray)
  : result (list Z) :=
  let values := presentation_values ds pixel_array in
  bind (standard_window ds values) (fun cw =>
  let '(lower, upper) := window_bounds cw in
  traverse (rescale_window lower upper) values).

(** Lines 70-116: [image_8bit] of the standard strategy. *)
Definition standard_image_8bit (ds : Dataset) (pixel_array : ndarray)
  : result ndarray :=
  bind (standard_windowed ds pixel_array) (fun image_8bit =>
  Ok (mk_ndarray uint8 (shape pixel_array) (apply_photometric ds image_8bit))).

(** Lines 123-193: the windowed CLAHE output, before the inversion. *)
Definition clahe_windowed (ds : Dataset) (pixel_array : ndarray)
  : result ndarray :=
  bind (to_uint8_full_range pixel_array) (fun pixel_array =>
  bind (clahe_apply pixel_array) (fun clahe_applied =>
  let '(lower, upper) := window_bounds (clahe_window ds) in
  bind (traverse (rescale_window lower upper)
                 (map inject_Z (data clahe_applied))) (fun normalized =>
  Ok (mk_ndarray uint8 (shape clahe_applied) normalized)))).

(** Lines 123-197: [normalized] of the CLAHE strategy. *)
Definition clahe_normalized (ds : Dataset) (pixel_array : ndarray)
  : result ndarray :=
  bind (clahe_windowed ds pixel_array) (fun normalized =>
  Ok (mk_ndarray uint8 (shape normalized)
                 (apply_photometric ds (data normalized)))).

(** Lines 67-220: the output raster and the detection raster. *)
Definition normalize (ds : Dataset) (transform_mode : string)
           (image_for_output : option ndarray) (pixel_array : ndarray)
  : result (ndarray * ndarray) :=
  let output_of image_8bit :=
    match image_for_output with
    | Some o => o
    | None => image_8bit
    end in
  if String.eqb transform_mode "standard" then
    bind (standard_image_8bit ds pixel_array) (fun image_8bit =>
    Ok (output_of image_8bit, image_8bit))
  else
    bind (clahe_normalized ds pixel_array) (fun normalized =>
    bind (clahe_apply normalized) (fun enhanced =>
    bind (contrast_stretch enhanced) (fun enhanced_stretched =>
    Ok (output_of normalized, enhanced_stretched)))).

(** [extract_text_from_dicom], from the decoded pixel array on. *)
Definition extract_text_from_dicom (ds : Dataset) (pixel_array : ndarray)
           (transform_mode : string)
  : result (string * ndarray * list detection) :=
  bind (select_frame ds pixel_array) (fun '(image_for_output, pixel_array) =>
  bind (np_min (data pixel_array)) (fun _ =>
  bind (normalize ds transform_mode image_for_output pixel_array)
       (fun '(image_for_output, enhanced_stretched) =>
  bind (cvtColor COLOR_GRAY2BGR enhanced_stretched) (fun bgr =>
  bind (ocr_detect bgr) (fun primary_detections =>
  Ok (extracted_text primary_detections, image_for_output,
      primary_detections)))))).

(** [main]: the pre-redaction image, the post-redaction image and the
    extracted text. *)
Definition main (ds : Dataset) (pixel_array : ndarray) (transform : string)
  : result (ndarray * ndarray * string) :=
  bind (extract_text_from_dicom ds pixel_array transform)
       (fun '(extracted_text, image_8bit, ocr_results) =>
  bind (redact_text_regions image_8bit (Some ocr_results) 10)
       (fun redacted_image =>
  Ok (image_8bit, redacted_image, extracted_text))).

End Extract.



End Pipeline.

(* ================================================================= *)
(** ** Detection Adapter: [_parse_ocr_results]

    The value of [ocr.predict] is classified by the tests the parser makes
    on it.  Recognised texts are strings, confidences are numbers and
    polygons are sequences of points, as the detector produces them. *)

Module OcrResults.
Import Py Detection.

(** The dict-style result: what [per_image.get(key)] returns for the four
    keys that are read ([None] for a missing key or a [None] value).
    [rec_polys] holds one array of points per text; [rec_boxes] is an
    array of rows [x_min, y_min, x_max, y_max]. *)
Record ocr_dict : Type := mk_ocr_dict {
  rec_texts : option (list string);
  rec_scores : option (list Q);
  rec_polys : option (list (list (Q * Q)));
  rec_boxes : option (list (Q * Q * Q * Q))
}.

(** [detection[1]] of a legacy entry: a list or tuple that begins with the
    text and may continue with the confidence, or any other object (the
    empty sequence among them), of which the parser takes [str(...)]. *)
Inductive text_conf : Type :=
| TextConf (text : string) (conf : option Q)
| NotSequence (str_of : string).

(** An element of the legacy per-image list: a list or tuple of at least
    two elements, [detection[0]] and [detection[1]], or anything else. *)
Inductive entry : Type :=
| Entry (bb : bbox) (tc : text_conf)
| NotEntry.

(** [results]: falsy ([None], the empty list); a sequence whose element 0
    is a dict; one whose element 0 is a list or tuple; or one whose element
    0 is neither, in which case the sequence itself is read as the list of
    entries ([rest] are its elements after element 0). *)
Inductive results : Type :=
| Falsy
| FirstIsDict (per_image : ocr_dict)
| FirstIsList (per_image : list entry)
| FirstIsOther (rest : list entry).

(** Lines 312-313: the four corners of an axis-aligned box. *)
Definition corners (b : Q * Q * Q * Q) : bbox :=
  let '(x_min, y_min, x_max, y_max) := b in
  Points [(x_min, y_min); (x_max, y_min); (x_max, y_max); (x_min, y_max)].

(** [x or []]. *)
Definition or_empty {A : Type} (o : option (list A)) : list A :=
  match o with
  | Some l => l
  | None => []
  end.

(** Lines 301-317. *)
Definition parse_dict (per_image : ocr_dict) : list detection :=
  let texts := or_empty (rec_texts per_image) in
  let scores := or_empty (rec_scores per_image) in
  let polys := or_empty (rec_polys per_image) in
  let boxes := rec_boxes per_image in
  mapi (fun idx text =>
          let score :=
            match nth_error scores idx with
            | Some sc => sc
            | None => 0%Q
            end in
          let bb :=
            match nth_error polys idx with
            | Some poly => Points poly
            | None =>
                match boxes with
                | Some rows =>
                    match nth_error rows idx with
                    | Some row => corners row
                    | None => NoBox
                    end
                | None => NoBox
                end
            end in
          (bb, text, score))
       texts.

(** Lines 321-331 for one element of the list. *)
Definition parse_entry (e : entry) : list detection :=
  match e with
  | Entry bb (TextConf text (Some conf)) => [(bb, text, conf)]
  | Entry bb (TextConf text None) => [(bb, text, 0%Q)]
  | Entry bb (NotSequence str_of) => [(bb, str_of, 0%Q)]
  | NotEntry => []
  end.

Definition _parse_ocr_results (r : results) : list detection :=
  match r with
  | Falsy => []
  | FirstIsDict per_image => parse_dict per_image
  | FirstIsList per_image => flat_map parse_entry per_image
  | FirstIsOther rest => flat_map parse_entry (NotEntry :: rest)
  end.

End OcrResults.

(* ================================================================= *)
(** ** Device selection (lines 225-250) *)

Module Device.
Import Py.

(** The local variables after the block, and the device that the last
    successful [paddle.set_device] call selected. *)
Record selection : Type := mk_selection {
  compiled_with_cuda : bool;
  gpu_count : Z;
  use_gpu : bool;
  device : option string
}.

Section Select.

(** [paddle.device.is_compiled_with_cuda()],
    [paddle.device.cuda.device_count()], and the outcome of the n-th
    call [paddle.set_device(name)]. *)
Variable is_compiled_with_cuda : result bool.
Variable device_count : result Z.
Variable set_device : nat -> string -> result unit.

Definition select_device : selection :=
  let '(compiled, count, use) :=
    match is_compiled_with_cuda with
    | Ok compiled =>
        let count :=
          if compiled then
            match device_count with
            | Ok n => n
            | Raise _ => 0
            end
          else 0 in
        (compiled, count, compiled && (0 <? count))
    | Raise _ => (false, 0, false)
    end in
  let wanted := (if use then "gpu" else "cpu")%string in
  match set_device 0%nat wanted with
  | Ok _ => mk_selection compiled count use (Some wanted)
  | Raise _ =>
      match set_device 1%nat "cpu"%string with
      | Ok _ => mk_selection compiled count false (Some "cpu"%string)
      | Raise _ => mk_selection compiled count use None
      end
  end.

End Select.

End Device.

(* ================================================================= *)
(** ** Vocabulary of the further properties *)

Module Vocabulary.
Import Py Numpy BoxMerger Detection.

(** A detection that the redactor skips at lines 355-358: blank text, no
    bounding box, a box that is not a list or tuple, or fewer than four
    points. *)
Definition skipped (d : detection) : Prop :=
  let '(bb, text, _) := d in
  strip_nonempty text = false \/
  match bb with
  | Points pts => (length pts < 4)%nat
  | _ => True
  end.

(** The pixel [(r, c)] lies inside an [h] by [w] image. *)
Definition in_image (h w : nat) (r c : Z) : Prop :=
  0 <= r < Z.of_nat h /\ 0 <= c < Z.of_nat w.

(** The samples are values of the dtype. *)
Definition in_dtype_range (a : ndarray) : Prop :=
  Forall (fun v => wrap (dtype_of a) v = v) (data a).

Definition uint8_samples (l : list Z) : Prop :=
  Forall (fun v => 0 <= v <= 255) l.

(** The text of a detection tuple. *)
Definition text_of (d : detection) : string := snd (fst d).

(** A detection written as a legacy entry [(bbox, (text, confidence))]. *)
Definition legacy_entry (d : detection) : OcrResults.entry :=
  let '(bb, text, conf) := d in
  OcrResults.Entry bb (OcrResults.TextConf text (Some conf)).

(** Parallel collections written as a dict-style result with polygons. *)
Definition polygon_dict (texts : list string) (scores : list Q)
           (polys : list (list (Q * Q))) : OcrResults.ocr_dict :=
  OcrResults.mk_ocr_dict (Some texts) (Some scores) (Some polys) None.

(** A result without any usable entry. *)
Definition nothing_parseable (r : OcrResults.results) : Prop :=
  match r with
  | OcrResults.Falsy => True
  | OcrResults.FirstIsDict d => OcrResults.or_empty (OcrResults.rec_texts d) = []
  | OcrResults.FirstIsList l => Forall (eq OcrResults.NotEntry) l
  | OcrResults.FirstIsOther l => Forall (eq OcrResults.NotEntry) l
  end.

End Vocabulary.

(* ================================================================= *)
(** ** The float expressions in IEEE binary64

    The rational model is exact; NumPy computes in binary64.  The
    expressions whose value decides a counterexample are written here on
    primitive floats, to be evaluated at the same inputs. *)

Module Float64.

(** [np.clip] on floats. *)
Definition np_clip (v lower upper : float) : float :=
  let raised := if (v <? lower)%float then lower else v in
  if (upper <? raised)%float then upper else raised.

Definition window_bounds (window_center window_width : float) : float * float :=
  ((window_center - window_width / 2)%float,
   (window_center + window_width / 2)%float).

(** Lines 106 and 193 before the cast. *)
Definition rescale_window (lower upper v : float) : float :=
  ((np_clip v lower upper - lower) / (upper - lower) * 255)%float.

(** The mean of the two middle samples of an even-sized buffer. *)
Definition mean2 (a b : float) : float := ((a + b) / 2)%float.

(** The integer part of a finite float; [None] for nan and infinities. *)
Definition int_of_float (f : float) : option Z :=
  match Prim2SF f with
  | S754_zero _ => Some 0
  | S754_finite s m e =>
      let magnitude :=
        if 0 <=? e then Z.pos m * 2 ^ e else Z.pos m / 2 ^ (- e) in
      Some (if s then - magnitude else magnitude)
  | _ => None
  end.

(** [astype(np.uint8)] of a finite float. *)
Definition astype_uint8 (f : float) : option Z :=
  match int_of_float f with
  | Some z => Some (z mod 256)
  | None => None
  end.

End Float64.

(* ================================================================= *)
(** * Properties *)

Module PyFacts.
Import Py.

Lemma bind_Ok {A B} (r : result A) (k : A -> result B) b :
  bind r k = Ok b -> exists a, r = Ok a /\ k a = Ok b.
Proof. destruct r as [a|e]; simpl; [now exists a|discriminate]. Qed.

Section SortedFacts.
Context {A : Type} (le : A -> A -> bool).

Lemma insert_sorted_perm a l : Permutation (a :: l) (insert_sorted le a l).
Proof.
  induction l as [|c l IH]; simpl.
  - apply Permutation_refl.
  - destruct (le a c).
    + apply Permutation_refl.
    + eapply perm_trans; [apply perm_swap|]. now apply perm_skip.
Qed.

Lemma sorted_perm l : Permutation l (sorted le l).
Proof.
  induction l as [|a l IH]; simpl.
  - constructor.
  - eapply perm_trans; [apply perm_skip, IH|]. apply insert_sorted_perm.
Qed.

Hypothesis le_total : forall a b, le a b = true \/ le b a = true.
Hypothesis le_trans : forall a b c, le a b = true -> le b c = true -> le a c = true.

Lemma insert_sorted_StronglySorted a l :
  StronglySorted (fun x y => le x y = true) l ->
  StronglySorted (fun x y => le x y = true) (insert_sorted le a l).
Proof.
  induction 1 as [|c l Hl IH Hc]; simpl.
  - repeat constructor.
  - destruct (le a c) eqn:E.
    + constructor; [now constructor|].
      constructor; [exact E|].
      rewrite Forall_forall in *. intros x Hx. eapply le_trans; eauto.
    + constructor; [exact IH|].
      rewrite Forall_forall in *. intros x Hx.
      apply (Permutation_in _ (Permutation_sym (insert_sorted_perm a l))) in Hx.
      destruct Hx as [<-|Hx]; [|now apply Hc].
      destruct (le_total a c); congruence.
Qed.

Lemma sorted_StronglySorted l :
  StronglySorted (fun x y => le x y = true) (sorted le l).
Proof.
  induction l as [|a l IH]; simpl; [constructor|].
  now apply insert_sorted_StronglySorted.
Qed.
End SortedFacts.

End PyFacts.

Module BoxMergerFacts.
Import Py PyFacts BoxMerger.

Lemma contained_refl b : contained b b.
Proof. destruct b as [[[x y] w] h]; simpl; lia. Qed.

Lemma contained_trans a b c : contained a b -> contained b c -> contained a c.
Proof.
  destruct a as [[[? ?] ?] ?], b as [[[? ?] ?] ?], c as [[[? ?] ?] ?].
  simpl; lia.
Qed.

Lemma union_box_l b m : contained b (union_box b m).
Proof.
  destruct b as [[[x y] w] h], m as [[[mx my] mw] mh]; simpl; lia.
Qed.

Lemma union_box_r b m : contained m (union_box b m).
Proof.
  destruct b as [[[x y] w] h], m as [[[mx my] mw] mh]; simpl; lia.
Qed.

Lemma covered_weaken a l l' :
  covered a l ->
  (forall m, In m l -> covered m l') ->
  covered a l'.
Proof.
  intros (m & Hin & Hc) H.
  destruct (H m Hin) as (m' & Hin' & Hc').
  exists m'; split; [assumption|]. eapply contained_trans; eassumption.
Qed.

Lemma covered_self m l : In m l -> covered m l.
Proof. intros H; exists m; split; [assumption|apply contained_refl]. Qed.

(** A successful in-place merge keeps the length, covers the new box and
    still covers every box of the list before the merge. *)
Lemma merge_into_Some margin b merged merged' :
  merge_into margin b merged = Some merged' ->
  length merged' = length merged /\
  covered b merged' /\
  forall m, In m merged -> covered m merged'.
Proof.
  revert merged'; induction merged as [|m rest IH]; simpl; intros merged' H.
  - discriminate.
  - destruct (near margin b m).
    + injection H as <-. repeat split.
      * exists (union_box b m); split; [now left|apply union_box_l].
      * intros m0 [<-|Hin].
        -- exists (union_box b m); split; [now left|apply union_box_r].
        -- apply covered_self; now right.
    + destruct (merge_into margin b rest) as [rest'|] eqn:E; [|discriminate].
      injection H as <-.
      destruct (IH rest' eq_refl) as (Hlen & (c & Hc & Hbc) & Hold).
      repeat split.
      * simpl; now rewrite Hlen.
      * exists c; split; [now right|assumption].
      * intros m0 [<-|Hin].
        -- apply covered_self; now left.
        -- destruct (Hold m0 Hin) as (c' & Hc' & Hmc').
           exists c'; split; [now right|assumption].
Qed.

Lemma merge_step_spec margin merged b :
  (length (merge_step margin merged b) <= S (length merged))%nat /\
  covered b (merge_step margin merged b) /\
  forall m, In m merged -> covered m (merge_step margin merged b).
Proof.
  unfold merge_step.
  destruct (merge_into margin b merged) as [merged'|] eqn:E.
  - destruct (merge_into_Some _ _ _ _ E) as (Hlen & Hb & Hold).
    repeat split; [lia|assumption|assumption].
  - repeat split.
    + rewrite length_app; simpl; lia.
    + apply covered_self, in_or_app; right; now left.
    + intros m Hin. apply covered_self, in_or_app; now left.
Qed.

(** The invariant of the outer loop, for any starting accumulator. *)
Lemma fold_merge_step_spec margin bs : forall merged,
  let out := fold_left (merge_step margin) bs merged in
  (length out <= length merged + length bs)%nat /\
  (forall m, In m merged -> covered m out) /\
  (forall b, In b bs -> covered b out).
Proof.
  induction bs as [|b bs IH]; intros merged; simpl.
  - repeat split; [lia| |contradiction].
    intros m Hin; now apply covered_self.
  - destruct (merge_step_spec margin merged b) as (Hlen & Hb & Hold).
    destruct (IH (merge_step margin merged b)) as (Hlen' & Hacc & Hbs).
    repeat split.
    + lia.
    + intros m Hin. eapply covered_weaken; [apply Hold, Hin|exact Hacc].
    + intros b' [<-|Hin].
      * eapply covered_weaken; [exact Hb|exact Hacc].
      * now apply Hbs.
Qed.

Lemma merge_covers_all boxes margin :
  (forall b, In b boxes -> covered b (_merge_overlapping_boxes boxes margin)) /\
  (length (_merge_overlapping_boxes boxes margin) <= length boxes)%nat.
Proof.
  unfold _merge_overlapping_boxes.
  destruct boxes as [|b0 rest] eqn:Eb; [split; [contradiction|simpl; lia]|].
  rewrite <- Eb. clear Eb b0 rest.
  destruct (fold_merge_step_spec margin (sorted key_le boxes) []) as (Hlen & _ & Hcov).
  split.
  - intros b Hin. apply Hcov.
    eapply Permutation_in; [apply (sorted_perm key_le)|exact Hin].
  - simpl in Hlen.
    now rewrite <- (Permutation_length (sorted_perm key_le boxes)) in Hlen.
Qed.

(** The boxes are processed in ascending (top, left) order, and boxes
    with equal keys keep their input order. *)
Lemma key_le_spec a b :
  key_le a b = true <->
  snd (fst (fst a)) < snd (fst (fst b)) \/
  (snd (fst (fst a)) = snd (fst (fst b)) /\ fst (fst (fst a)) <= fst (fst (fst b))).
Proof.
  destruct a as [[[x y] w] h], b as [[[x' y'] w'] h']. unfold key_le; simpl.
  rewrite orb_true_iff, andb_true_iff, Z.ltb_lt, Z.eqb_eq, Z.leb_le. tauto.
Qed.

Lemma key_le_total a b : key_le a b = true \/ key_le b a = true.
Proof. rewrite !key_le_spec. lia. Qed.

Lemma key_le_trans a b c :
  key_le a b = true -> key_le b c = true -> key_le a c = true.
Proof. rewrite !key_le_spec. lia. Qed.

Lemma sorted_boxes_ordered boxes :
  StronglySorted (fun a b => key_le a b = true) (sorted key_le boxes).
Proof. apply sorted_StronglySorted; [apply key_le_total|apply key_le_trans]. Qed.

Lemma insert_sorted_has_key k a l :
  filter (has_key k) (insert_sorted key_le a l) =
  if has_key k a then a :: filter (has_key k) l else filter (has_key k) l.
Proof.
  induction l as [|c l IH]; simpl; [reflexivity|].
  destruct (key_le a c) eqn:E; simpl; [reflexivity|].
  rewrite IH. destruct (has_key k a) eqn:Ea; [|reflexivity].
  destruct (has_key k c) eqn:Ec; [|reflexivity].
  exfalso. assert (Hle : key_le a c = true); [|congruence].
  destruct a as [[[x y] w] h], c as [[[x' y'] w'] h'], k as [ky kx].
  unfold has_key in *; simpl in *.
  rewrite andb_true_iff, !Z.eqb_eq in Ea, Ec.
  apply key_le_spec; simpl. lia.
Qed.

Lemma sorted_boxes_stable k boxes :
  filter (has_key k) (sorted key_le boxes) = filter (has_key k) boxes.
Proof.
  induction boxes as [|b boxes IH]; simpl; [reflexivity|].
  rewrite insert_sorted_has_key, IH. reflexivity.
Qed.

(** Any property of boxes that the union bounding box keeps is kept by
    the merge. *)
Section MergeInvariant.
Variable P : box -> Prop.
Hypothesis P_union : forall b m, P b -> P m -> P (union_box b m).

Lemma merge_into_Forall margin b merged : forall merged',
  P b -> Forall P merged ->
  merge_into margin b merged = Some merged' -> Forall P merged'.
Proof.
  induction merged as [|m rest IH]; simpl; intros merged' Hb Hm H.
  - discriminate.
  - inversion Hm as [|? ? Hm1 Hm2]; subst.
    destruct (near margin b m).
    + injection H as <-. constructor; [now apply P_union|assumption].
    + destruct (merge_into margin b rest) as [rest'|]; [|discriminate].
      injection H as <-. constructor; [assumption|now apply IH].
Qed.

Lemma merge_step_Forall margin merged b :
  P b -> Forall P merged -> Forall P (merge_step margin merged b).
Proof.
  intros Hb Hm. unfold merge_step.
  destruct (merge_into margin b merged) as [merged'|] eqn:E.
  - eapply merge_into_Forall; eassumption.
  - apply Forall_app. split; [assumption|now constructor].
Qed.

Lemma fold_merge_step_Forall margin bs : forall merged,
  Forall P bs -> Forall P merged ->
  Forall P (fold_left (merge_step margin) bs merged).
Proof.
  induction bs as [|b bs IH]; intros merged Hbs Hm; simpl; [assumption|].
  inversion Hbs; subst. apply IH; [assumption|].
  now apply merge_step_Forall.
Qed.

Lemma merge_Forall boxes margin :
  Forall P boxes -> Forall P (_merge_overlapping_boxes boxes margin).
Proof.
  intros H. unfold _merge_overlapping_boxes.
  destruct boxes as [|b0 rest] eqn:Eb; [constructor|]. rewrite <- Eb in *.
  apply fold_merge_step_Forall; [|constructor].
  rewrite Forall_forall in *. intros b Hb. apply H.
  apply (Permutation_in _ (Permutation_sym (sorted_perm key_le boxes))), Hb.
Qed.
End MergeInvariant.

(** The merged rectangles have positive width and height, and begin at
    non-negative coordinates when the input boxes do. *)
Lemma merge_output_positive boxes margin :
  Forall positive boxes ->
  Forall positive (_merge_overlapping_boxes boxes margin).
Proof.
  apply merge_Forall.
  intros [[[x y] w] h] [[[mx my] mw] mh]; simpl; lia.
Qed.

Lemma merge_output_nonneg boxes margin :
  Forall nonneg_origin boxes ->
  Forall nonneg_origin (_merge_overlapping_boxes boxes margin).
Proof.
  apply merge_Forall.
  intros [[[x y] w] h] [[[mx my] mw] mh]; simpl; lia.
Qed.

(** C4. For every list of boxes with positive width and height, every
    input box is contained in some box of the list returned by
    [_merge_overlapping_boxes], and the returned list is no longer than
    the input. *)
Theorem merge_never_loses_coverage (boxes : list box) (margin : Z) :
  Forall positive boxes ->
  (forall b, In b boxes ->
     exists m, In m (_merge_overlapping_boxes boxes margin) /\ contained b m) /\
  (length (_merge_overlapping_boxes boxes margin) <= length boxes)%nat.
Proof.
  intros _. exact (merge_covers_all boxes margin).
Qed.

Lemma merge_never_loses_coverage_witness :
  let boxes := [(0, 0, 10, 10); (8, 8, 10, 10); (100, 100, 5, 5)] in
  Forall positive boxes /\
  (forall b, In b boxes ->
     exists m, In m (_merge_overlapping_boxes boxes 5) /\ contained b m) /\
  (length (_merge_overlapping_boxes boxes 5) <= length boxes)%nat.
Proof.
  split.
  - repeat constructor.
  - apply (merge_never_loses_coverage
             [(0, 0, 10, 10); (8, 8, 10, 10); (100, 100, 5, 5)] 5).
    repeat constructor.
Defined.

(** C7. Merging [(0,0,10,10)], [(8,8,10,10)] and [(100,100,5,5)] with
    margin 5 yields exactly two rectangles: the one from (0,0) to (18,18)
    and [(100,100,5,5)] unchanged. *)
Theorem merge_reference_example :
  _merge_overlapping_boxes [(0, 0, 10, 10); (8, 8, 10, 10); (100, 100, 5, 5)] 5
  = [(0, 0, 18, 18); (100, 100, 5, 5)].
Proof. reflexivity. Qed.


(** The same result for the three rectangles in any order. *)
Lemma merge_three_rectangles_any_order boxes :
  Permutation [(0, 0, 10, 10); (8, 8, 10, 10); (100, 100, 5, 5)] boxes ->
  _merge_overlapping_boxes boxes 5 = [(0, 0, 18, 18); (100, 100, 5, 5)].
Proof.
  intros H.
  assert (Hnd : NoDup boxes).
  { eapply Permutation_NoDup; [exact H|].
    repeat constructor; simpl; intuition congruence. }
  pose proof (Permutation_length H) as Hlen.
  destruct boxes as [|a [|b [|c [|? ?]]]]; try discriminate Hlen.
  assert (Ha : In a [(0, 0, 10, 10); (8, 8, 10, 10); (100, 100, 5, 5)])
    by (eapply Permutation_in; [apply Permutation_sym, H|now left]).
  assert (Hb : In b [(0, 0, 10, 10); (8, 8, 10, 10); (100, 100, 5, 5)])
    by (eapply Permutation_in; [apply Permutation_sym, H|now right; left]).
  assert (Hc : In c [(0, 0, 10, 10); (8, 8, 10, 10); (100, 100, 5, 5)])
    by (eapply Permutation_in; [apply Permutation_sym, H|now right; right; left]).
  inversion Hnd as [|? ? Hna Hnd']; subst.
  inversion Hnd' as [|? ? Hnb _]; subst.
  simpl in Ha, Hb, Hc, Hna, Hnb.
  destruct Ha as [<-|[<-|[<-|[]]]]; destruct Hb as [<-|[<-|[<-|[]]]];
    destruct Hc as [<-|[<-|[<-|[]]]];
    try reflexivity; exfalso; tauto.
Qed.

End BoxMergerFacts.

Module NumpyFacts.
Import Py PyFacts Numpy.

Lemma Zleb_total a b : (a <=? b) = true \/ (b <=? a) = true.
Proof. destruct (Z.leb_spec a b); [now left|right; apply Z.leb_le; lia]. Qed.

Lemma Zleb_trans a b c :
  (a <=? b) = true -> (b <=? c) = true -> (a <=? c) = true.
Proof. rewrite !Z.leb_le. lia. Qed.

Lemma sorted_Z_ordered l :
  StronglySorted (fun x y => (x <=? y) = true) (sorted Z.leb l).
Proof. apply sorted_StronglySorted; [apply Zleb_total|apply Zleb_trans]. Qed.

Lemma count_below_cons m a l :
  count_below m (a :: l) = ((if (a <? m)%Z then 1 else 0) + count_below m l)%nat.
Proof. unfold count_below; simpl. now destruct (a <? m). Qed.

Lemma count_above_cons m a l :
  count_above m (a :: l) = ((if (m <? a)%Z then 1 else 0) + count_above m l)%nat.
Proof. unfold count_above; simpl. now destruct (m <? a). Qed.

Lemma count_below_perm m l l' :
  Permutation l l' -> count_below m l = count_below m l'.
Proof.
  induction 1; rewrite ?count_below_cons; lia.
Qed.

Lemma count_above_perm m l l' :
  Permutation l l' -> count_above m l = count_above m l'.
Proof.
  induction 1; rewrite ?count_above_cons; lia.
Qed.

Lemma count_above_le_length m l : (count_above m l <= length l)%nat.
Proof. apply filter_length_le. Qed.

Lemma count_below_none m l :
  Forall (fun x => m <= x) l -> count_below m l = 0%nat.
Proof.
  induction 1 as [|a l Ha _ IH]; [reflexivity|].
  rewrite count_below_cons, IH.
  destruct (Z.ltb_spec a m); [lia|reflexivity].
Qed.

Lemma count_above_all m l :
  Forall (fun x => m < x) l -> count_above m l = length l.
Proof.
  induction 1 as [|a l Ha _ IH]; [reflexivity|].
  rewrite count_above_cons, IH. simpl.
  destruct (Z.ltb_spec m a); [reflexivity|lia].
Qed.

(** In a sorted buffer, the sample at position [k] is [m] exactly when at
    most [k] samples are below [m] and fewer than [length - k] are above. *)
Lemma sorted_nth_counts m s :
  StronglySorted (fun x y => (x <=? y) = true) s ->
  forall k, (k < length s)%nat -> nth k s 0 = m ->
  (count_below m s <= k)%nat /\ (count_above m s + k < length s)%nat.
Proof.
  induction 1 as [|a s Hs IH Ha]; intros k Hk Hn; simpl in Hk; [lia|].
  rewrite count_below_cons, count_above_cons.
  rewrite Forall_forall in Ha.
  destruct k as [|k]; simpl in Hn.
  - subst a. rewrite Z.ltb_irrefl. simpl.
    rewrite count_below_none.
    + pose proof (count_above_le_length m s). simpl. lia.
    + apply Forall_forall. intros x Hx. apply Z.leb_le. now apply Ha.
  - destruct (IH k) as [H1 H2]; [lia|exact Hn|].
    assert (Hle : a <= m).
    { apply Z.leb_le, Ha. rewrite <- Hn. apply nth_In. lia. }
    destruct (Z.ltb_spec m a); [lia|].
    destruct (a <? m); simpl; lia.
Qed.

Lemma counts_sorted_nth m s :
  StronglySorted (fun x y => (x <=? y) = true) s ->
  forall k, (k < length s)%nat ->
  (count_below m s <= k)%nat -> (count_above m s + k < length s)%nat ->
  nth k s 0 = m.
Proof.
  induction 1 as [|a s Hs IH Ha]; intros k Hk H1 H2; simpl in Hk; [lia|].
  rewrite count_below_cons in H1. rewrite count_above_cons in H2.
  simpl in H2.
  assert (Ha' : Forall (fun x => a <= x) s).
  { rewrite Forall_forall in *. intros x Hx. apply Z.leb_le. now apply Ha. }
  destruct k as [|k]; simpl.
  - destruct (Z.ltb_spec a m); [simpl in H1; lia|].
    destruct (Z.ltb_spec m a); [|lia].
    rewrite count_above_all in H2; [simpl in H2; lia|].
    eapply Forall_impl; [|exact Ha']. simpl. intros; lia.
  - apply IH; [lia| |destruct (m <? a); simpl in H2; lia].
    destruct (Z.ltb_spec a m); [simpl in H1; lia|].
    rewrite count_below_none; [lia|].
    eapply Forall_impl; [|exact Ha']. simpl. intros; lia.
Qed.

(** Replacing samples by [m] does not raise either count. *)
Lemma replaced_counts m l l' :
  Forall2 (fun v v' => v' = v \/ v' = m) l l' ->
  (count_below m l' <= count_below m l)%nat /\
  (count_above m l' <= count_above m l)%nat.
Proof.
  induction 1 as [|v v' l l' Hv _ IH]; [split; reflexivity|].
  rewrite !count_below_cons, !count_above_cons.
  destruct Hv as [-> | ->].
  - lia.
  - rewrite Z.ltb_irrefl. simpl. lia.
Qed.

(** The middle sample of the sorted buffer survives the replacement of
    any samples by the middle sample itself. *)
Lemma middle_sample_stable m l l' k :
  Forall2 (fun v v' => v' = v \/ v' = m) l l' ->
  (k < length l)%nat ->
  nth k (sorted Z.leb l) 0 = m ->
  nth k (sorted Z.leb l') 0 = m.
Proof.
  intros HF Hk Hm.
  pose proof (Forall2_length HF) as Hlen.
  pose proof (Permutation_length (sorted_perm Z.leb l)) as Hl.
  pose proof (Permutation_length (sorted_perm Z.leb l')) as Hl'.
  destruct (sorted_nth_counts m _ (sorted_Z_ordered l) k) as [H1 H2];
    [lia|exact Hm|].
  rewrite <- (count_below_perm m _ _ (sorted_perm Z.leb l)) in H1.
  rewrite <- (count_above_perm m _ _ (sorted_perm Z.leb l)) in H2.
  destruct (replaced_counts m l l' HF) as [H3 H4].
  apply counts_sorted_nth; [apply sorted_Z_ordered|lia| |].
  - rewrite <- (count_below_perm m _ _ (sorted_perm Z.leb l')). lia.
  - rewrite <- (count_above_perm m _ _ (sorted_perm Z.leb l')). lia.
Qed.

Lemma int_of_float_nonneg q : (0 <= q)%Q -> int_of_float q = Qfloor q.
Proof.
  destruct q as [n d]. unfold Qle, int_of_float, Qfloor. simpl. intros H.
  apply Z.quot_div_nonneg; lia.
Qed.

Lemma int_of_float_sign q : (0 <= q)%Q -> 0 <= int_of_float q.
Proof.
  intros H. rewrite int_of_float_nonneg by exact H.
  change 0 with (Qfloor 0). now apply Qfloor_resp_le.
Qed.

Lemma int_of_float_inject_Z z : int_of_float (inject_Z z) = z.
Proof. unfold int_of_float, inject_Z. simpl. apply Z.quot_1_r. Qed.

(** The median of a buffer of odd length is its middle sample. *)
Lemma np_median_odd l :
  Nat.odd (length l) = true ->
  np_median l = inject_Z (nth (length l / 2) (sorted Z.leb l) 0).
Proof.
  intros H. unfold np_median.
  rewrite <- Nat.negb_odd, H. reflexivity.
Qed.

End NumpyFacts.

Module RedactorFacts.
Import Py PyFacts Numpy NumpyFacts BoxMerger Detection Redactor.

Lemma mapi_from_length {A B} (f : nat -> A -> B) l : forall s,
  length (mapi_from s f l) = length l.
Proof. induction l as [|a l IH]; intros s; simpl; [reflexivity|now rewrite IH]. Qed.

Lemma mapi_from_nth_error {A B} (f : nat -> A -> B) l : forall s i,
  nth_error (mapi_from s f l) i = option_map (f (s + i)%nat) (nth_error l i).
Proof.
  induction l as [|a l IH]; intros s [|i]; simpl; try reflexivity.
  - now rewrite Nat.add_0_r.
  - rewrite IH. now rewrite Nat.add_succ_r.
Qed.

Lemma mapi_from_ext {A B} (f g : nat -> A -> B) l : forall s,
  (forall i a, f i a = g i a) -> mapi_from s f l = mapi_from s g l.
Proof.
  induction l as [|a l IH]; intros s H; simpl; [reflexivity|].
  now rewrite H, (IH (S s) H).
Qed.

Lemma mapi_from_compose {A B C} (f : nat -> A -> B) (g : nat -> B -> C) l :
  forall s,
  mapi_from s g (mapi_from s f l) = mapi_from s (fun i a => g i (f i a)) l.
Proof.
  induction l as [|a l IH]; intros s; simpl; [reflexivity|now rewrite IH].
Qed.

Lemma mapi_from_id {A} (l : list A) : forall s, mapi_from s (fun _ a => a) l = l.
Proof.
  induction l as [|a l IH]; intros s; simpl; [reflexivity|now rewrite IH].
Qed.

(** One painting step, as a map over the buffer. *)
Lemma paint_spec padding h w rest val a b :
  shape a = h :: w :: rest ->
  paint padding h w val a b =
  mk_ndarray (dtype_of a) (shape a)
    (mapi (fun i v => if selects padding h w (size_of rest) b i
                      then fill_at val (i mod size_of rest) else v)
          (data a)).
Proof.
  intros Hs. destruct b as [[[x y] bw] bh].
  unfold paint, setitem_rect, selects. now rewrite Hs.
Qed.

(** The whole painting loop, as one map over the buffer. *)
Lemma fold_paint_spec padding h w rest val boxes : forall a,
  shape a = h :: w :: rest ->
  fold_left (paint padding h w val) boxes a =
  mk_ndarray (dtype_of a) (shape a)
    (mapi (fun i v => if painted padding h w (size_of rest) boxes i
                      then fill_at val (i mod size_of rest) else v)
          (data a)).
Proof.
  induction boxes as [|b boxes IH]; intros a Hs; simpl.
  - unfold mapi. rewrite mapi_from_id. now destruct a.
  - rewrite (paint_spec _ _ _ rest) by assumption.
    rewrite IH by exact Hs. simpl.
    f_equal. unfold mapi. rewrite mapi_from_compose.
    apply mapi_from_ext. intros i v.
    destruct (selects padding h w (size_of rest) b i); simpl; [|reflexivity].
    now destruct (painted padding h w (size_of rest) boxes i).
Qed.

(** What [redact_text_regions] returns, in one equation. *)
Lemma redact_text_regions_spec image detections padding out :
  redact_text_regions image detections padding = Ok out ->
  (redaction_boxes detections = [] /\ out = image) \/
  exists h w rest,
    shape image = h :: w :: rest /\
    out = mk_ndarray (dtype_of image) (shape image)
            (mapi (fun i v =>
                     if painted padding h w (size_of rest)
                                (redaction_boxes detections) i
                     then fill_at (median_val image) (i mod size_of rest)
                     else v)
                  (data image)).
Proof.
  unfold redact_text_regions.
  destruct (redaction_boxes detections) as [|b boxes] eqn:Eb.
  - intros [= <-]. now left.
  - destruct (shape image) as [|h [|w rest]] eqn:Es; try discriminate.
    intros [= <-]. right. exists h, w, rest. split; [reflexivity|].
    pose proof (fold_paint_spec padding h w rest (median_val image)
                  (b :: boxes) image Es) as Hf.
    rewrite Es in Hf. exact Hf.
Qed.

(** Shape, dtype and buffer length are those of the input. *)
Lemma redact_preserves_geometry image detections padding out :
  redact_text_regions image detections padding = Ok out ->
  shape out = shape image /\ dtype_of out = dtype_of image /\
  length (data out) = length (data image).
Proof.
  intros H. destruct (redact_text_regions_spec _ _ _ _ H)
    as [[_ ->]|(h & w & rest & Hs & ->)]; simpl.
  - repeat split.
  - repeat split. unfold mapi. apply mapi_from_length.
Qed.

Lemma redact_preserves_well_formed image detections padding out :
  redact_text_regions image detections padding = Ok out ->
  well_formed image -> well_formed out.
Proof.
  intros H. destruct (redact_preserves_geometry _ _ _ _ H) as (Hs & _ & Hl).
  unfold well_formed. now rewrite Hs, Hl.
Qed.

(** The redactor returns whenever the image has at least two axes. *)
Lemma redact_returns image detections padding h w rest :
  shape image = h :: w :: rest ->
  exists out, redact_text_regions image detections padding = Ok out.
Proof.
  intros Hs. unfold redact_text_regions. rewrite Hs.
  destruct (redaction_boxes detections); eexists; reflexivity.
Qed.

(** Painting twice with one fill colour is painting once. *)
Lemma redact_twice_same_fill image detections padding out :
  redact_text_regions image detections padding = Ok out ->
  median_val out = median_val image ->
  redact_text_regions out detections padding = Ok out.
Proof.
  intros H Hfill.
  destruct (redact_text_regions_spec _ _ _ _ H)
    as [[Hb ->]|(h & w & rest & Hs & Hout)].
  - exact H.
  - assert (Hso : shape out = h :: w :: rest) by (rewrite Hout; exact Hs).
    destruct (redact_returns out detections padding h w rest Hso) as [out' H'].
    rewrite H'. f_equal.
    destruct (redact_text_regions_spec _ _ _ _ H')
      as [[_ ->]|(h' & w' & rest' & Hs' & Hout')]; [reflexivity|].
    rewrite Hso in Hs'. injection Hs' as <- <- <-.
    rewrite Hout', Hfill. clear H H' Hout' Hfill Hso. subst out. simpl.
    f_equal. unfold mapi. rewrite mapi_from_compose.
    apply mapi_from_ext. intros i v.
    now destruct (painted padding h w (size_of rest) (redaction_boxes detections) i).
Qed.

(** C5 (amended). Redacting the redacted raster again with the same
    detections and padding yields the same raster whenever the fill
    colour computed from the redacted raster equals the fill colour
    computed from the input. *)
Theorem redact_idempotent_same_fill image detections padding out :
  redact_text_regions image detections padding = Ok out ->
  median_val out = median_val image ->
  redact_text_regions out detections padding = Ok out.
Proof.
  intros H Hfill. eapply redact_twice_same_fill; eassumption.
Qed.

Lemma redact_idempotent_same_fill_witness :
  let image := mk_ndarray uint8 [1; 3]%nat [0; 10; 20] in
  let detections :=
    Some [(Points [(0, 0); (1, 0); (1, 1); (0, 1)]%Q, "a"%string, 1%Q)] in
  let out := mk_ndarray uint8 [1; 3]%nat [10; 10; 20] in
  redact_text_regions image detections 0 = Ok out /\
  median_val out = median_val image /\
  redact_text_regions out detections 0 = Ok out.
Proof.
  split; [reflexivity|]. split; [reflexivity|].
  apply (redact_idempotent_same_fill
           (mk_ndarray uint8 [1; 3]%nat [0; 10; 20])
           (Some [(Points [(0, 0); (1, 0); (1, 1); (0, 1)]%Q, "a"%string, 1%Q)])
           0).
  - reflexivity.
  - reflexivity.
Defined.

(** C5 fails as stated: the fill colour is the median of the raster that
    is passed in.  On the 1x2 raster [[0, 10]] with one detection over the
    first pixel the first pass paints 5 (the median 5.0), and the second
    pass, whose input has median 7.5, paints 7. *)
Lemma redact_not_idempotent :
  let image := mk_ndarray uint8 [1; 2]%nat [0; 10] in
  let detections :=
    Some [(Points [(0, 0); (1, 0); (1, 1); (0, 1)]%Q, "a"%string, 1%Q)] in
  redact_text_regions image detections 0
    = Ok (mk_ndarray uint8 [1; 2]%nat [5; 10]) /\
  redact_text_regions (mk_ndarray uint8 [1; 2]%nat [5; 10]) detections 0
    = Ok (mk_ndarray uint8 [1; 2]%nat [7; 10]) /\
  bind (redact_text_regions image detections 0)
       (fun once => redact_text_regions once detections 0)
    <> redact_text_regions image detections 0.
Proof.
  split; [reflexivity|]. split; [reflexivity|].
  vm_compute. discriminate.
Qed.

(** A sufficient condition: a raster that is not 3-D, holds an odd number
    of samples, all within the range of its dtype.  Its median is one of
    its samples and stays the median after the painting. *)
Lemma median_val_scalar image :
  length (shape image) <> 3%nat ->
  median_val image = Scalar (astype (dtype_of image) (np_median (data image))).
Proof.
  unfold median_val. destruct (shape image) as [|? [|? [|? [|? ?]]]]; simpl;
    intros H; try reflexivity. congruence.
Qed.

Lemma mapi_from_replaced (P : nat -> bool) (m : Z) l : forall s,
  Forall2 (fun v v' => v' = v \/ v' = m) l
          (mapi_from s (fun i v => if P i then m else v) l).
Proof.
  induction l as [|a l IH]; intros s; simpl; constructor; [|apply IH].
  destruct (P s); [now right|now left].
Qed.

Lemma redact_keeps_median_odd image detections padding out :
  length (shape image) <> 3%nat ->
  Nat.odd (length (data image)) = true ->
  Forall (fun v => wrap (dtype_of image) v = v) (data image) ->
  redact_text_regions image detections padding = Ok out ->
  median_val out = median_val image.
Proof.
  intros Hnd Hodd Hrange H.
  destruct (redact_text_regions_spec _ _ _ _ H)
    as [[_ ->]|(h & w & rest & Hs & Hout)]; [reflexivity|].
  set (dt := dtype_of image) in *.
  set (k := (length (data image) / 2)%nat).
  set (m := nth k (sorted Z.leb (data image)) 0).
  assert (Hk : (k < length (data image))%nat).
  { apply Nat.div_lt; [|lia]. destruct (length (data image)); [discriminate|lia]. }
  assert (Hm : wrap dt m = m).
  { rewrite Forall_forall in Hrange. apply Hrange.
    apply (Permutation_in _ (Permutation_sym (sorted_perm Z.leb (data image)))).
    apply nth_In.
    now rewrite <- (Permutation_length (sorted_perm Z.leb (data image))). }
  assert (Hfill : median_val image = Scalar m).
  { rewrite median_val_scalar by exact Hnd.
    rewrite np_median_odd by exact Hodd.
    unfold astype. rewrite int_of_float_inject_Z. fold dt k m. now rewrite Hm. }
  rewrite Hfill in *.
  rewrite median_val_scalar by (rewrite Hout; exact Hnd).
  rewrite Hout. simpl. fold dt. f_equal.
  unfold mapi.
  rewrite np_median_odd by (rewrite mapi_from_length; exact Hodd).
  rewrite mapi_from_length. fold k.
  rewrite (middle_sample_stable m (data image)); [| |exact Hk|reflexivity].
  - unfold astype. rewrite int_of_float_inject_Z. exact Hm.
  - apply (mapi_from_replaced
             (painted padding h w (size_of rest) (redaction_boxes detections))).
Qed.

(** Redaction of such a raster is idempotent. *)
Lemma redact_idempotent_odd image detections padding out :
  length (shape image) <> 3%nat ->
  Nat.odd (length (data image)) = true ->
  Forall (fun v => wrap (dtype_of image) v = v) (data image) ->
  redact_text_regions image detections padding = Ok out ->
  redact_text_regions out detections padding = Ok out.
Proof.
  intros Hnd Hodd Hrange H.
  apply (redact_twice_same_fill image detections padding out H).
  now apply (redact_keeps_median_odd image detections padding).
Qed.

(** C8. When the detection sequence is empty or [None], the redacted
    image is the input image, sample for sample, and the extracted text
    is exactly the placeholder "(No text detected)". *)
Theorem no_detection_pass_through (image : ndarray) (padding : Z) :
  redact_text_regions image None padding = Ok image /\
  redact_text_regions image (Some []) padding = Ok image /\
  extracted_text [] = "(No text detected)"%string.
Proof. repeat split. Qed.

(** Detections whose text is blank are not extracted either. *)
Lemma extracted_text_blank primary_detections :
  Forall (fun d : detection => strip_nonempty (snd (fst d)) = false)
         primary_detections ->
  extracted_text primary_detections = no_text_placeholder.
Proof.
  intros H. unfold extracted_text.
  replace (flat_map _ primary_detections) with (@nil string); [reflexivity|].
  induction H as [|[[bb text] conf] l Hd _ IH]; simpl in *; [reflexivity|].
  now rewrite Hd.
Qed.

(** *** The frame of the redaction *)

(** When the right and bottom edges of the padded rectangle are not
    negative, the slice that is written lies inside the padded rectangle. *)
Lemma slice_index_nonneg n i : 0 <= i -> slice_index n i = Z.min i n.
Proof.
  intros H. unfold slice_index.
  destruct (i <? 0) eqn:E; [apply Z.ltb_lt in E; lia|reflexivity].
Qed.

Lemma selects_in_expanded padding h w inner b i :
  nonneg_edges padding b ->
  selects padding h w inner b i = true ->
  in_expanded padding b (row_of w inner i) (col_of w inner i).
Proof.
  destruct b as [[[x y] bw] bh]. unfold nonneg_edges, selects, in_slice, in_expanded.
  generalize (row_of w inner i) (col_of w inner i). intros r c [Hx Hy] H.
  rewrite !slice_index_nonneg in H by lia.
  rewrite !andb_true_iff, !Z.leb_le, !Z.ltb_lt in H. lia.
Qed.

Lemma painted_false padding h w inner boxes i :
  Forall (nonneg_edges padding) boxes ->
  (forall b, In b boxes ->
     ~ in_expanded padding b (row_of w inner i) (col_of w inner i)) ->
  painted padding h w inner boxes i = false.
Proof.
  intros Hn Hout. unfold painted.
  destruct (existsb _ boxes) eqn:E; [|reflexivity].
  apply existsb_exists in E. destruct E as (b & Hin & Hsel).
  exfalso. apply (Hout b Hin).
  apply (selects_in_expanded padding h w inner b i); [|exact Hsel].
  rewrite Forall_forall in Hn. now apply Hn.
Qed.

(** The part of C6 that holds: shape, dtype and every sample outside the
    padded rectangles are those of the input, provided no padded
    rectangle has a negative right or bottom edge. *)
Lemma redact_frame image detections padding out h w rest :
  shape image = h :: w :: rest ->
  redact_text_regions image detections padding = Ok out ->
  Forall (nonneg_edges padding) (redaction_boxes detections) ->
  shape out = shape image /\ dtype_of out = dtype_of image /\
  forall i,
    (forall b, In b (redaction_boxes detections) ->
       ~ in_expanded padding b (row_of w (size_of rest) i)
                               (col_of w (size_of rest) i)) ->
    nth_error (data out) i = nth_error (data image) i.
Proof.
  intros Hs H Hn.
  destruct (redact_preserves_geometry _ _ _ _ H) as (Hsh & Hdt & _).
  split; [exact Hsh|]. split; [exact Hdt|].
  intros i Hout.
  destruct (redact_text_regions_spec _ _ _ _ H)
    as [[_ ->]|(h' & w' & rest' & Hs' & ->)]; [reflexivity|].
  rewrite Hs in Hs'. injection Hs' as <- <- <-. simpl.
  unfold mapi. rewrite mapi_from_nth_error. simpl.
  rewrite painted_false by assumption.
  now destruct (nth_error (data image) i).
Qed.

(** Boxes collected from detections have positive width and height, and
    so have the rectangles that are painted. *)
Lemma detection_box_positive d b : detection_box d = Some b -> positive b.
Proof.
  destruct d as [[bb text] conf]. unfold detection_box.
  destruct (negb (strip_nonempty text)); [discriminate|].
  destruct bb as [|[|[px py] rest]|]; try discriminate.
  destruct (length _ <? 4)%nat; [discriminate|].
  match goal with |- context [(0 <? ?w) && (0 <? ?h)] =>
    destruct (Z.ltb_spec 0 w); destruct (Z.ltb_spec 0 h); simpl;
    try discriminate end.
  intros [= <-]. simpl. lia.
Qed.

Lemma collect_boxes_positive detections :
  Forall positive (collect_boxes detections).
Proof.
  destruct detections as [l|]; simpl; [|constructor].
  induction l as [|d l IH]; simpl; [constructor|].
  apply Forall_app. split; [|exact IH].
  destruct (detection_box d) as [b|] eqn:E; constructor;
    [eapply detection_box_positive; eassumption|constructor].
Qed.

Lemma redaction_boxes_Forall (P : box -> Prop) detections :
  (forall b m, P b -> P m -> P (union_box b m)) ->
  Forall P (collect_boxes detections) ->
  Forall P (redaction_boxes detections).
Proof.
  intros HP H. unfold redaction_boxes.
  destruct (collect_boxes detections) as [|b boxes] eqn:E; [constructor|].
  now apply BoxMergerFacts.merge_Forall.
Qed.

Lemma redaction_boxes_positive detections :
  Forall positive (redaction_boxes detections).
Proof.
  apply redaction_boxes_Forall; [|apply collect_boxes_positive].
  intros [[[x y] w] h] [[[mx my] mw] mh]; simpl; lia.
Qed.

Lemma fold_Qmin_nonneg l : forall a,
  (0 <= a)%Q -> Forall (fun q => 0 <= q)%Q l -> (0 <= fold_left Qmin l a)%Q.
Proof.
  induction l as [|q l IH]; intros a Ha Hl; simpl; [exact Ha|].
  inversion Hl; subst. apply IH; [|assumption].
  now apply Q.min_glb.
Qed.

Lemma detection_box_nonneg d b :
  nonneg_polygon d -> detection_box d = Some b -> nonneg_origin b.
Proof.
  destruct d as [[bb text] conf]. unfold nonneg_polygon, detection_box. simpl.
  destruct (negb (strip_nonempty text)); [discriminate|].
  destruct bb as [|[|[px py] rest]|]; try discriminate.
  intros Hp. inversion Hp as [|? ? [Hx Hy] Hrest]; subst. simpl in Hx, Hy.
  match goal with |- context [if ?c then None else _] =>
    destruct c; [discriminate|] end.
  match goal with |- context [(0 <? ?w) && (0 <? ?h)] =>
    destruct ((0 <? w) && (0 <? h)); [|discriminate] end.
  intros [= <-]. simpl. split; apply int_of_float_sign, fold_Qmin_nonneg;
    try assumption; apply Forall_map;
    (eapply Forall_impl; [|exact Hrest]); simpl; tauto.
Qed.

Lemma collect_boxes_nonneg l :
  Forall nonneg_polygon l -> Forall nonneg_origin (collect_boxes (Some l)).
Proof.
  induction 1 as [|d l Hd _ IH]; simpl; [constructor|].
  apply Forall_app. split; [|exact IH].
  destruct (detection_box d) as [b|] eqn:E; constructor;
    [eapply detection_box_nonneg; eassumption|constructor].
Qed.

(** Polygons without negative coordinates and a non-negative padding
    give padded rectangles whose right and bottom edges are not
    negative. *)
Lemma redaction_boxes_nonneg_edges padding l :
  0 <= padding -> Forall nonneg_polygon l ->
  Forall (nonneg_edges padding) (redaction_boxes (Some l)).
Proof.
  intros Hp Hl.
  assert (H : Forall (fun b => positive b /\ nonneg_origin b)
                     (redaction_boxes (Some l))).
  { apply redaction_boxes_Forall.
    - intros [[[x y] w] h] [[[mx my] mw] mh]; simpl; lia.
    - apply Forall_and; [apply collect_boxes_positive|now apply collect_boxes_nonneg]. }
  eapply Forall_impl; [|exact H].
  intros [[[x y] w] h]; simpl. lia.
Qed.

(** The frame of C6 for detections inside the image quadrant. *)
Lemma redact_frame_nonneg image l padding out h w rest :
  shape image = h :: w :: rest ->
  0 <= padding -> Forall nonneg_polygon l ->
  redact_text_regions image (Some l) padding = Ok out ->
  shape out = shape image /\ dtype_of out = dtype_of image /\
  forall i,
    (forall b, In b (redaction_boxes (Some l)) ->
       ~ in_expanded padding b (row_of w (size_of rest) i)
                               (col_of w (size_of rest) i)) ->
    nth_error (data out) i = nth_error (data image) i.
Proof.
  intros Hs Hp Hl H.
  apply (redact_frame image (Some l) padding out h w rest Hs H).
  now apply redaction_boxes_nonneg_edges.
Qed.

(** C6 at a detection left of the image: on a 3x3 raster, the rectangle
    [(-10, 0, 3, 1)] with padding 5 ends at column [-2], which NumPy reads
    from the right end: column 0 of every row is painted although the
    padded rectangle does not meet the image. *)
Theorem redact_paints_outside_rectangle :
  let image := mk_ndarray uint8 [3; 3]%nat [1; 2; 3; 4; 5; 6; 7; 8; 9] in
  let detections :=
    Some [(Points [(-10, 0); (-7, 0); (-7, 1); (-10, 1)]%Q, "a"%string, 1%Q)] in
  redaction_boxes detections = [(-10, 0, 3, 1)] /\
  redact_text_regions image detections 5
    = Ok (mk_ndarray uint8 [3; 3]%nat [5; 2; 3; 5; 5; 6; 5; 8; 9]) /\
  ~ in_expanded 5 (-10, 0, 3, 1) 0 0.
Proof.
  split; [reflexivity|]. split; [reflexivity|].
  unfold in_expanded. lia.
Qed.

(** *** The input object is not written *)

Lemma store_update_other f : forall s obj o,
  o <> obj -> nth_error (store_update s obj f) o = nth_error s o.
Proof.
  induction s as [|a s IH]; intros [|obj] [|o] Hne; simpl;
    try reflexivity; try congruence.
  apply IH. congruence.
Qed.

Lemma store_update_same f : forall s obj a,
  nth_error s obj = Some a -> nth_error (store_update s obj f) obj = Some (f a).
Proof.
  induction s as [|a0 s IH]; intros [|obj] a H; simpl in *; try discriminate.
  - now injection H as ->.
  - now apply IH.
Qed.

Lemma fold_store_update (g : ndarray -> box -> ndarray) obj boxes : forall s a,
  nth_error s obj = Some a ->
  let s' := fold_left (fun st b => store_update st obj (fun x => g x b)) boxes s in
  nth_error s' obj = Some (fold_left g boxes a) /\
  forall o, o <> obj -> nth_error s' o = nth_error s o.
Proof.
  induction boxes as [|b boxes IH]; intros s a Ha; simpl.
  - split; [exact Ha|reflexivity].
  - destruct (IH (store_update s obj (fun x => g x b)) (g a b)) as [H1 H2].
    + exact (store_update_same (fun x => g x b) s obj a Ha).
    + split; [exact H1|].
      intros o Hne. rewrite H2 by assumption. now apply store_update_other.
Qed.

(** The array that is returned is a new object; every object that existed
    before the call, the input among them, is unchanged; and the new
    object holds what [redact_text_regions] computes. *)
Lemma redact_returns_new_object s image detections padding s' redacted :
  redact_text_regions_obj s image detections padding = Ok (s', redacted) ->
  redacted = length s /\ redacted <> image /\
  (forall o, (o < length s)%nat -> nth_error s' o = nth_error s o) /\
  exists img out,
    nth_error s image = Some img /\ nth_error s' redacted = Some out /\
    redact_text_regions img detections padding = Ok out.
Proof.
  unfold redact_text_regions_obj, copy.
  destruct (nth_error s image) as [img|] eqn:Ei; [|discriminate]. simpl.
  assert (Hlt : (image < length s)%nat)
    by (apply nth_error_Some; congruence).
  rewrite nth_error_app1 by exact Hlt. rewrite Ei.
  assert (Hnew : nth_error (s ++ [img]) (length s) = Some img)
    by (rewrite nth_error_app2, Nat.sub_diag by lia; reflexivity).
  unfold redact_text_regions.
  destruct (redaction_boxes detections) as [|b boxes] eqn:Eb.
  - intros [= <- <-]. repeat split; [lia| |].
    + intros o Ho. now apply nth_error_app1.
    + exists img, img. repeat split; assumption.
  - destruct (shape img) as [|h [|w rest]] eqn:Es; try discriminate.
    intros [= <- <-].
    destruct (fold_store_update (paint padding h w (median_val img))
                (length s) (b :: boxes) (s ++ [img]) img Hnew) as [H1 H2].
    repeat split; [lia| |].
    + intros o Ho. rewrite H2 by lia. now apply nth_error_app1.
    + exists img, (fold_left (paint padding h w (median_val img)) (b :: boxes) img).
      split; [reflexivity|]. split; [exact H1|]. now rewrite Es.
Qed.

End RedactorFacts.

Module PipelineFacts.
Import Py PyFacts Numpy NumpyFacts Dicom BoxMerger Detection Redactor Pipeline.

(** *** Window resolution *)

(** C1 (amended). In the CLAHE strategy, when the window centre or the
    window width is absent from the dataset, the window applied to the
    CLAHE output is the fixed full-range window: centre 128 and width 256,
    that is lower bound 0 and upper bound 256, whatever the data. *)
Theorem clahe_window_absent_tags (ds : Dataset) :
  WindowCenter ds = None \/ WindowWidth ds = None ->
  clahe_window ds = (128%Q, 256%Q) /\
  (fst (window_bounds (clahe_window ds)) == 0)%Q /\
  (snd (window_bounds (clahe_window ds)) == 256)%Q.
Proof.
  intros H.
  assert (E : clahe_window ds = (128%Q, 256%Q)).
  { unfold clahe_window. destruct H as [-> | ->].
    - reflexivity.
    - now destruct (WindowCenter ds). }
  rewrite E. repeat split.
Qed.

Lemma clahe_window_absent_tags_witness :
  let ds := mk_dataset (Some 1) (Some 8) None None (Some "MONOCHROME2"%string) in
  (WindowCenter ds = None \/ WindowWidth ds = None) /\
  clahe_window ds = (128%Q, 256%Q) /\
  (fst (window_bounds (clahe_window ds)) == 0)%Q /\
  (snd (window_bounds (clahe_window ds)) == 256)%Q.
Proof.
  split; [left; reflexivity|].
  apply (clahe_window_absent_tags
           (mk_dataset (Some 1) (Some 8) None None (Some "MONOCHROME2"%string))).
  left; reflexivity.
Defined.

(** C1 fails as stated: for a dataset without window tags whose CLAHE
    output has minimum 0 and maximum 100, the standard strategy derives
    centre 50 and width 100, and the CLAHE strategy applies centre 128 and
    width 256. *)
Lemma clahe_window_not_data_derived :
  let ds := mk_dataset (Some 1) (Some 8) None None (Some "MONOCHROME2"%string) in
  let clahe_applied := map inject_Z [0; 100] in
  standard_window ds clahe_applied = Ok ((100 # 2)%Q, 100%Q) /\
  clahe_window ds = (128%Q, 256%Q) /\
  ~ (128 == 100 # 2)%Q /\ ~ (256 == 100)%Q.
Proof.
  split; [reflexivity|]. split; [reflexivity|].
  split; intros H; discriminate H.
Qed.

(** The window derived from the data has a positive width. *)
Lemma data_window_positive pixel_array c w :
  data_window pixel_array = Ok (c, w) -> (0 < w)%Q.
Proof.
  unfold data_window.
  destruct (np_minq pixel_array) as [mn|]; [|discriminate].
  destruct (np_maxq pixel_array) as [mx|]; [|discriminate]. simpl.
  destruct (Qle_bool mx mn) eqn:E; simpl; intros [= _ <-].
  - reflexivity.
  - assert (Hlt : (mn < mx)%Q).
    { apply Qnot_le_lt. intros Hle. apply Qle_bool_iff in Hle. congruence. }
    unfold Qminus. rewrite <- (Qplus_opp_r mn).
    apply Qplus_lt_le_compat; [exact Hlt|apply Qle_refl].
Qed.

(** *** The window rescale *)

Lemma window_bounds_diff c w :
  (snd (window_bounds (c, w)) - fst (window_bounds (c, w)) == w)%Q.
Proof. simpl. field. Qed.

Lemma np_clip_bounds v lower upper :
  (lower <= upper)%Q ->
  (lower <= np_clip v lower upper)%Q /\ (np_clip v lower upper <= upper)%Q.
Proof.
  intros H. unfold np_clip. split.
  - apply Q.min_glb; [apply Q.le_max_r|exact H].
  - apply Q.le_min_r.
Qed.

Lemma astype_uint8_range q : 0 <= astype uint8 q < 256.
Proof. unfold astype, wrap. apply Z.mod_pos_bound. lia. Qed.

Lemma astype_uint8_in_range q :
  (0 <= q)%Q -> (q <= 255)%Q ->
  astype uint8 q = Qfloor q /\ 0 <= Qfloor q <= 255.
Proof.
  intros H0 H1.
  assert (Hf : 0 <= Qfloor q <= 255).
  { split.
    - change 0 with (Qfloor 0). now apply Qfloor_resp_le.
    - change 255 with (Qfloor 255). now apply Qfloor_resp_le. }
  split; [|exact Hf].
  unfold astype, wrap. rewrite int_of_float_nonneg by exact H0.
  apply Z.mod_small. lia.
Qed.

(** The rescaled value of a clipped sample lies between 0 and 255. *)
Lemma rescale_value_range v lower upper :
  (lower < upper)%Q ->
  let q := ((np_clip v lower upper - lower) / (upper - lower) * 255)%Q in
  (0 <= q)%Q /\ (q <= 255)%Q.
Proof.
  intros Hlt q.
  destruct (np_clip_bounds v lower upper (Qlt_le_weak _ _ Hlt)) as [Hl Hu].
  set (t := (np_clip v lower upper - lower)%Q) in *.
  set (d := (upper - lower)%Q) in *.
  assert (Hd : (0 < d)%Q).
  { unfold d, Qminus. rewrite <- (Qplus_opp_r lower).
    apply Qplus_lt_le_compat; [exact Hlt|apply Qle_refl]. }
  assert (Ht0 : (0 <= t)%Q).
  { unfold t, Qminus. rewrite <- (Qplus_opp_r lower).
    apply Qplus_le_compat; [exact Hl|apply Qle_refl]. }
  assert (Htd : (t <= d)%Q).
  { unfold t, d, Qminus. apply Qplus_le_compat; [exact Hu|apply Qle_refl]. }
  assert (H0 : (0 <= t / d)%Q).
  { apply Qle_shift_div_l; [exact Hd|]. now rewrite Qmult_0_l. }
  assert (H1 : (t / d <= 1)%Q).
  { apply Qle_shift_div_r; [exact Hd|]. now rewrite Qmult_1_l. }
  unfold q. split.
  - apply Qmult_le_0_compat; [exact H0|discriminate].
  - setoid_replace 255%Q with (1 * 255)%Q at 2 by reflexivity.
    apply Qmult_le_compat_r; [exact H1|discriminate].
Qed.




(** C2 at a zero window width: the bounds coincide, the denominator
    [upper - lower] is zero, and the rescale of every sample divides by
    it; both strategies reach this division with the window of the
    dataset. *)
Theorem zero_window_width_divides_by_zero :
  let ds := mk_dataset (Some 1) (Some 8) (Some (Single 128)) (Some (Single 0))
                       (Some "MONOCHROME2"%string) in
  let pixel_array := mk_ndarray uint8 [1; 2]%nat [10; 200] in
  standard_window ds (map inject_Z (data pixel_array)) = Ok (128%Q, 0%Q) /\
  clahe_window ds = (128%Q, 0%Q) /\
  (snd (window_bounds (128, 0)) - fst (window_bounds (128, 0)) == 0)%Q /\
  (forall v, rescale_window (fst (window_bounds (128, 0)%Q))
                            (snd (window_bounds (128, 0)%Q)) v
             = Raise InvalidValue) /\
  standard_image_8bit (fun _ _ => Raise ValueError) ds pixel_array
    = Raise InvalidValue /\
  clahe_normalized (fun a => Ok a) ds pixel_array = Raise InvalidValue.
Proof.
  repeat split.
Qed.

(** The same for every centre and every width equal to zero, and for the
    two strategies on any dataset that carries such a window. *)
Lemma zero_width_rescale_undefined c w v :
  (w == 0)%Q ->
  rescale_window (fst (window_bounds (c, w))) (snd (window_bounds (c, w))) v
  = Raise InvalidValue.
Proof.
  intros Hw. unfold rescale_window, np_divide.
  assert (E : Qeq_bool (snd (window_bounds (c, w)) - fst (window_bounds (c, w))) 0
              = true).
  { apply Qeq_bool_iff. now rewrite window_bounds_diff. }
  now rewrite E.
Qed.

Lemma traverse_first_raises {A B} (f : A -> result B) e a l :
  f a = Raise e -> traverse f (a :: l) = Raise e.
Proof. intros H. simpl. now rewrite H. Qed.

Lemma standard_zero_width apply_voi_lut ds pixel_array c w :
  WindowCenter ds = Some c -> WindowWidth ds = Some w ->
  (first_value w == 0)%Q ->
  presentation_values apply_voi_lut ds pixel_array <> [] ->
  standard_image_8bit apply_voi_lut ds pixel_array = Raise InvalidValue.
Proof.
  intros Hc Hw H0 Hne.
  unfold standard_image_8bit, standard_windowed, standard_window.
  rewrite Hc, Hw. simpl.
  destruct (presentation_values apply_voi_lut ds pixel_array) as [|v values];
    [congruence|].
  pose proof (zero_width_rescale_undefined (first_value c) (first_value w) v H0)
    as Hz.
  simpl in Hz.
  now rewrite (traverse_first_raises _ InvalidValue v values Hz).
Qed.

Lemma clahe_zero_width clahe_apply ds pixel_array c w p8 clahe_applied :
  WindowCenter ds = Some c -> WindowWidth ds = Some w ->
  (first_value w == 0)%Q ->
  match BitsStored ds with Some b => b | None => 8 end <= 8 ->
  to_uint8_full_range pixel_array = Ok p8 ->
  clahe_apply p8 = Ok clahe_applied ->
  data clahe_applied <> [] ->
  clahe_normalized clahe_apply ds pixel_array = Raise InvalidValue.
Proof.
  intros Hc Hw H0 Hbits Hp8 Hca Hne.
  unfold clahe_normalized, clahe_windowed, clahe_window.
  rewrite Hp8. simpl. rewrite Hca. simpl. rewrite Hc, Hw.
  destruct (Z.ltb_spec 8 (match BitsStored ds with Some b => b | None => 8 end));
    [lia|].
  destruct (data clahe_applied) as [|v values]; [congruence|].
  pose proof (zero_width_rescale_undefined (first_value c) (first_value w)
                (inject_Z v) H0) as Hz.
  simpl in Hz. simpl map. cbv beta iota zeta.
  unfold window_bounds.
  now rewrite (traverse_first_raises _ InvalidValue _ _ Hz).
Qed.

(** The sibling divisions are guarded: with the window derived from the
    data, and with the full-range window, the denominator is not zero. *)
Lemma data_window_denominator_nonzero pixel_array cw :
  data_window pixel_array = Ok cw ->
  ~ (snd (window_bounds cw) - fst (window_bounds cw) == 0)%Q.
Proof.
  destruct cw as [c w]. intros H E.
  rewrite window_bounds_diff in E.
  apply data_window_positive in H. rewrite E in H. discriminate.
Qed.

Lemma full_range_window_denominator_nonzero :
  ~ (snd (window_bounds (128, 256)) - fst (window_bounds (128, 256)) == 0)%Q.
Proof. intros E. discriminate E. Qed.

(** The two min-max rescales (lines 128 and 217) run only under the
    test [max_val > min_val]: on a non-empty array whose samples lie in
    the range of its dtype they return, and no division by zero occurs. *)
Lemma fold_min_In l : forall v, In (fold_left Z.min l v) (v :: l).
Proof.
  induction l as [|a l IH]; intros v; simpl; [now left|].
  destruct (IH (Z.min v a)) as [H|H]; [|now right; right].
  rewrite <- H. destruct (Z.min_spec v a) as [[_ ->]|[_ ->]]; [now left|now right; left].
Qed.

Lemma fold_max_In l : forall v, In (fold_left Z.max l v) (v :: l).
Proof.
  induction l as [|a l IH]; intros v; simpl; [now left|].
  destruct (IH (Z.max v a)) as [H|H]; [|now right; right].
  rewrite <- H. destruct (Z.max_spec v a) as [[_ ->]|[_ ->]]; [now right; left|now left].
Qed.

Lemma np_min_In l m : np_min l = Ok m -> In m l.
Proof. destruct l; [discriminate|]. intros [= <-]. apply fold_min_In. Qed.

Lemma np_max_In l m : np_max l = Ok m -> In m l.
Proof. destruct l; [discriminate|]. intros [= <-]. apply fold_max_In. Qed.

Lemma wrap_diff_nonzero dt mn mx :
  wrap dt mn = mn -> wrap dt mx = mx -> mn < mx -> wrap dt (mx - mn) <> 0.
Proof.
  destruct dt; unfold wrap; intros Hmn Hmx Hlt.
  - pose proof (Z.mod_pos_bound mn 256). pose proof (Z.mod_pos_bound mx 256).
    rewrite Z.mod_small; lia.
  - pose proof (Z.mod_pos_bound mn 65536). pose proof (Z.mod_pos_bound mx 65536).
    rewrite Z.mod_small; lia.
  - pose proof (Z.mod_pos_bound (mn + 32768) 65536).
    pose proof (Z.mod_pos_bound (mx + 32768) 65536).
    destruct (Z_lt_ge_dec (mx - mn + 32768) 65536) as [Hs|Hs].
    + rewrite Z.mod_small; lia.
    + replace (mx - mn + 32768) with ((mx - mn - 32768) + 1 * 65536) by ring.
      rewrite Z.mod_add by lia. rewrite Z.mod_small; lia.
Qed.

Lemma rescale_minmax_defined dt mn mx v :
  wrap dt (mx - mn) <> 0 -> exists z, rescale_minmax dt mn mx v = Ok z.
Proof.
  intros H. unfold rescale_minmax, np_divide.
  destruct (Qeq_bool (inject_Z (wrap dt (mx - mn))) 0) eqn:E.
  - exfalso. apply H. apply Qeq_bool_eq in E.
    unfold Qeq in E. simpl in E. lia.
  - eexists. reflexivity.
Qed.

Lemma traverse_total {A B} (f : A -> result B) l :
  (forall a, exists b, f a = Ok b) -> exists r, traverse f l = Ok r.
Proof.
  intros Hf. induction l as [|a l [r IH]]; simpl; [now eexists|].
  destruct (Hf a) as [b ->]. rewrite IH. now eexists.
Qed.

Lemma to_uint8_full_range_total pixel_array :
  data pixel_array <> [] ->
  Forall (fun v => wrap (dtype_of pixel_array) v = v) (data pixel_array) ->
  exists p8, to_uint8_full_range pixel_array = Ok p8.
Proof.
  intros Hne Hr. unfold to_uint8_full_range.
  destruct (dtype_eqb (dtype_of pixel_array) uint8); [now eexists|].
  destruct (np_min (data pixel_array)) as [mn|] eqn:Emn;
    [|destruct (data pixel_array); [congruence|discriminate]].
  destruct (np_max (data pixel_array)) as [mx|] eqn:Emx;
    [|destruct (data pixel_array); [congruence|discriminate]].
  simpl. destruct (Z.ltb_spec mn mx); [|now eexists].
  rewrite Forall_forall in Hr.
  destruct (traverse_total (rescale_minmax (dtype_of pixel_array) mn mx)
              (data pixel_array)) as [d ->]; [|now eexists].
  intros v. apply rescale_minmax_defined, wrap_diff_nonzero;
    [apply Hr, np_min_In, Emn|apply Hr, np_max_In, Emx|assumption].
Qed.

Lemma contrast_stretch_total enhanced :
  data enhanced <> [] ->
  Forall (fun v => wrap (dtype_of enhanced) v = v) (data enhanced) ->
  exists stretched, contrast_stretch enhanced = Ok stretched.
Proof.
  intros Hne Hr. unfold contrast_stretch.
  destruct (np_min (data enhanced)) as [mn|] eqn:Emn;
    [|destruct (data enhanced); [congruence|discriminate]].
  destruct (np_max (data enhanced)) as [mx|] eqn:Emx;
    [|destruct (data enhanced); [congruence|discriminate]].
  simpl. destruct (Z.ltb_spec mn mx); [|now eexists].
  rewrite Forall_forall in Hr.
  destruct (traverse_total (rescale_minmax (dtype_of enhanced) mn mx)
              (data enhanced)) as [d ->]; [|now eexists].
  intros v. apply rescale_minmax_defined, wrap_diff_nonzero;
    [apply Hr, np_min_In, Emn|apply Hr, np_max_In, Emx|assumption].
Qed.

(** *** Frame selection *)

(** C3 (amended). For a colour input whose selected array has a channel
    count other than 3 or 4, the frame selector raises no error: it skips
    both conversions, keeps no colour output image, and returns the
    selected array unchanged as the working array. *)
Theorem unsupported_channels_pass_through
        (cvtColor : color_code -> ndarray -> result ndarray)
        (ds : Dataset) (pixel_array frame : ndarray) (channels : nat) :
  1 < samples_per_pixel ds ->
  (if (3 <? ndim pixel_array)%nat then first_frame pixel_array
   else Ok pixel_array) = Ok frame ->
  last_axis frame = Ok channels ->
  channels <> 3%nat -> channels <> 4%nat ->
  select_frame cvtColor ds pixel_array = Ok (None, frame).
Proof.
  intros Hspp Hframe Hlast H3 H4. unfold select_frame.
  apply Z.ltb_lt in Hspp. rewrite Hspp, Hframe. simpl. rewrite Hlast. simpl.
  apply Nat.eqb_neq in H3, H4. now rewrite H3, H4.
Qed.

Lemma unsupported_channels_pass_through_witness :
  let ds := mk_dataset (Some 3) (Some 8) None None (Some "RGB"%string) in
  let pixel_array := mk_ndarray uint8 [1; 2; 2]%nat [1; 2; 3; 4] in
  select_frame (fun _ a => Ok a) ds pixel_array = Ok (None, pixel_array).
Proof.
  apply (unsupported_channels_pass_through (fun _ a => Ok a)
           (mk_dataset (Some 3) (Some 8) None None (Some "RGB"%string))
           (mk_ndarray uint8 [1; 2; 2]%nat [1; 2; 3; 4])
           (mk_ndarray uint8 [1; 2; 2]%nat [1; 2; 3; 4]) 2%nat).
  - reflexivity.
  - reflexivity.
  - reflexivity.
  - discriminate.
  - discriminate.
Defined.

(** C3 fails as stated: for a 1x2 colour array with two channels the
    frame selector returns normally, even with a [cv2.cvtColor] that
    rejects every call. *)
Lemma two_channels_not_rejected :
  let ds := mk_dataset (Some 3) (Some 8) None None (Some "RGB"%string) in
  let pixel_array := mk_ndarray uint8 [1; 2; 2]%nat [1; 2; 3; 4] in
  select_frame (fun _ _ => Raise cv2_error) ds pixel_array
    = Ok (None, pixel_array) /\
  ~ exists e, select_frame (fun _ _ => Raise cv2_error) ds pixel_array = Raise e.
Proof.
  split; [reflexivity|].
  intros [e H]. discriminate H.
Qed.

(** *** Photometric inversion *)

Lemma bitwise_not_uint8 v : 0 <= v < 256 -> bitwise_not v = 255 - v.
Proof.
  intros H.
  assert (Hall : forallb (fun n => bitwise_not (Z.of_nat n) =? 255 - Z.of_nat n)
                         (seq 0 256) = true) by (vm_compute; reflexivity).
  rewrite forallb_forall in Hall.
  specialize (Hall (Z.to_nat v)).
  rewrite Z2Nat.id in Hall by lia.
  apply Z.eqb_eq, Hall, in_seq. lia.
Qed.

Lemma traverse_Forall {A B} (f : A -> result B) (P : B -> Prop) :
  (forall a b, f a = Ok b -> P b) ->
  forall l r, traverse f l = Ok r -> Forall P r.
Proof.
  intros Hf. induction l as [|a l IH]; simpl; intros r H.
  - injection H as <-. constructor.
  - destruct (f a) as [b|] eqn:Ea; [|discriminate]. simpl in H.
    destruct (traverse f l) as [bs|]; [|discriminate]. simpl in H.
    injection H as <-. constructor; [now apply (Hf a)|now apply IH].
Qed.

Lemma rescale_window_uint8 lower upper v z :
  rescale_window lower upper v = Ok z -> 0 <= z < 256.
Proof.
  unfold rescale_window.
  destruct (np_divide _ _) as [q|]; [|discriminate]. simpl.
  intros [= <-]. apply astype_uint8_range.
Qed.

Lemma inversion_of_windowed ds lower upper values w :
  PhotometricInterpretation ds = Some "MONOCHROME1"%string ->
  traverse (rescale_window lower upper) values = Ok w ->
  apply_photometric ds w = map (fun V => 255 - V) w.
Proof.
  intros Hpi Hw. unfold apply_photometric. rewrite Hpi. simpl.
  apply map_ext_in. intros V HV. apply bitwise_not_uint8.
  pose proof (traverse_Forall (rescale_window lower upper)
                (fun z => 0 <= z < 256)
                (rescale_window_uint8 lower upper) values w Hw) as HF.
  rewrite Forall_forall in HF. now apply HF.
Qed.

(** C10. For a MONOCHROME1 input, in both strategies, the normalized
    output is the windowed 8-bit image with every sample [V] replaced by
    [255 - V]. *)
Theorem monochrome1_inverts
        (apply_voi_lut : ndarray -> Dataset -> result (list Q))
        (clahe_apply : ndarray -> result ndarray)
        (ds : Dataset) (pixel_array : ndarray) :
  PhotometricInterpretation ds = Some "MONOCHROME1"%string ->
  (forall windowed,
     standard_windowed apply_voi_lut ds pixel_array = Ok windowed ->
     standard_image_8bit apply_voi_lut ds pixel_array =
       Ok (mk_ndarray uint8 (shape pixel_array)
                      (map (fun V => 255 - V) windowed))) /\
  (forall windowed,
     clahe_windowed clahe_apply ds pixel_array = Ok windowed ->
     clahe_normalized clahe_apply ds pixel_array =
       Ok (mk_ndarray uint8 (shape windowed)
                      (map (fun V => 255 - V) (data windowed)))).
Proof.
  intros Hpi. split; intros windowed Hw.
  - unfold standard_image_8bit. rewrite Hw. simpl. do 2 f_equal.
    unfold standard_windowed in Hw.
    destruct (standard_window ds _) as [cw|]; [|discriminate]. simpl in Hw.
    destruct (window_bounds cw) as [lower upper].
    eapply inversion_of_windowed; eassumption.
  - unfold clahe_normalized. rewrite Hw. simpl. do 2 f_equal.
    unfold clahe_windowed in Hw.
    destruct (to_uint8_full_range pixel_array) as [p8|]; [|discriminate].
    simpl in Hw.
    destruct (clahe_apply p8) as [ca|]; [|discriminate]. simpl in Hw.
    destruct (window_bounds (clahe_window ds)) as [lower upper].
    destruct (traverse _ _) as [n|] eqn:En; [|discriminate]. simpl in Hw.
    injection Hw as <-. simpl.
    eapply inversion_of_windowed; eassumption.
Qed.

Lemma monochrome1_inverts_witness :
  let ds := mk_dataset (Some 1) (Some 8) (Some (Single 2)) (Some (Single 4))
                       (Some "MONOCHROME1"%string) in
  let pixel_array := mk_ndarray uint8 [2; 3]%nat [0; 1; 2; 3; 4; 100] in
  let voi := fun (_ : ndarray) (_ : Dataset) => @Raise (list Q) ValueError in
  let clahe := fun a : ndarray => Ok a in
  standard_windowed voi ds pixel_array = Ok [0; 63; 127; 191; 255; 255] /\
  standard_image_8bit voi ds pixel_array =
    Ok (mk_ndarray uint8 [2; 3]%nat [255; 192; 128; 64; 0; 0]) /\
  clahe_normalized clahe ds pixel_array =
    Ok (mk_ndarray uint8 [2; 3]%nat [255; 192; 128; 64; 0; 0]).
Proof.
  pose proof (monochrome1_inverts
                (fun (_ : ndarray) (_ : Dataset) => @Raise (list Q) ValueError)
                (fun a : ndarray => Ok a)
                (mk_dataset (Some 1) (Some 8) (Some (Single 2)) (Some (Single 4))
                            (Some "MONOCHROME1"%string))
                (mk_ndarray uint8 [2; 3]%nat [0; 1; 2; 3; 4; 100])
                eq_refl) as [Hs Hc].
  split; [reflexivity|]. split.
  - exact (Hs [0; 63; 127; 191; 255; 255] eq_refl).
  - exact (Hc (mk_ndarray uint8 [2; 3]%nat [0; 63; 127; 191; 255; 255]) eq_refl).
Defined.


(** *** No detections, end to end *)

(** When the detection adapter yields the empty sequence, [main] saves
    the output raster unchanged as the post-redaction image and the
    placeholder as the text. *)
Lemma main_no_detections cvtColor apply_voi_lut clahe_apply ocr_detect
      ds pixel_array transform text image :
  extract_text_from_dicom cvtColor apply_voi_lut clahe_apply ocr_detect
                          ds pixel_array transform = Ok (text, image, []) ->
  text = no_text_placeholder /\
  main cvtColor apply_voi_lut clahe_apply ocr_detect ds pixel_array transform
  = Ok (image, image, no_text_placeholder).
Proof.
  intros H.
  assert (Ht : text = no_text_placeholder).
  { unfold extract_text_from_dicom in H.
    apply bind_Ok in H. destruct H as ([out pa] & _ & H).
    apply bind_Ok in H. destruct H as (mn & _ & H).
    apply bind_Ok in H. destruct H as ([out' stretched] & _ & H).
    apply bind_Ok in H. destruct H as (bgr & _ & H).
    apply bind_Ok in H. destruct H as (dets & _ & H).
    injection H as <- _ ->. reflexivity. }
  split; [exact Ht|].
  unfold main. rewrite H. simpl. now rewrite Ht.
Qed.

End PipelineFacts.

Module Float64Facts.
Import Float64.

(** In binary64 as in the rational model: window centre 2 and width 4
    send the sample 1 to 63.75, stored as 63. *)
Lemma rescale_window_binary64 :
  let '(lower, upper) := window_bounds 2 4 in
  astype_uint8 (rescale_window lower upper 1) = Some 63.
Proof. vm_compute. reflexivity. Qed.

(** A zero window width makes the rescale 0/0, which is nan. *)
Lemma zero_window_width_binary64 :
  let '(lower, upper) := window_bounds 128 0 in
  (upper - lower)%float = 0%float /\
  Prim2SF (rescale_window lower upper 10) = S754_nan /\
  astype_uint8 (rescale_window lower upper 10) = None.
Proof. vm_compute. repeat split. Qed.

(** The two medians of the idempotence counterexample: 5.0 and 7.5, cast
    to 5 and 7. *)
Lemma medians_binary64 :
  astype_uint8 (mean2 0 10) = Some 5 /\ astype_uint8 (mean2 5 10) = Some 7.
Proof. vm_compute. split; reflexivity. Qed.

End Float64Facts.

(* ================================================================= *)
(** * Further properties of the code *)

Module BoxMergerProperties.
Import Py PyFacts BoxMerger BoxMergerFacts.

(** X1. Every rectangle returned by [_merge_overlapping_boxes] has a
    positive width and a positive height when every input box has. *)
Theorem merged_boxes_positive (boxes : list box) (margin : Z) :
  Forall positive boxes ->
  Forall positive (_merge_overlapping_boxes boxes margin).
Proof. apply merge_output_positive. Qed.

Lemma merged_boxes_positive_witness :
  Forall positive [(0, 0, 10, 10); (8, 8, 10, 10); (100, 100, 5, 5)] /\
  Forall positive
    (_merge_overlapping_boxes [(0, 0, 10, 10); (8, 8, 10, 10); (100, 100, 5, 5)] 5).
Proof.
  split; [repeat constructor|].
  apply (merged_boxes_positive
           [(0, 0, 10, 10); (8, 8, 10, 10); (100, 100, 5, 5)] 5).
  repeat constructor.
Defined.

(** X2. Merging never reaches beyond the input: if every input box lies
    inside a rectangle, so does every merged box. *)
Theorem merged_boxes_within (boxes : list box) (margin : Z) (bounds : box) :
  Forall (fun b => contained b bounds) boxes ->
  Forall (fun b => contained b bounds) (_merge_overlapping_boxes boxes margin).
Proof.
  apply merge_Forall.
  destruct bounds as [[[rx ry] rw] rh].
  intros [[[x y] w] h] [[[mx my] mw] mh]; simpl; lia.
Qed.

Lemma merged_boxes_within_witness :
  Forall (fun b => contained b (0, 0, 200, 200))
         [(0, 0, 10, 10); (8, 8, 10, 10); (100, 100, 5, 5)] /\
  Forall (fun b => contained b (0, 0, 200, 200))
    (_merge_overlapping_boxes [(0, 0, 10, 10); (8, 8, 10, 10); (100, 100, 5, 5)] 5).
Proof.
  split; [repeat constructor; simpl; lia|].
  apply (merged_boxes_within
           [(0, 0, 10, 10); (8, 8, 10, 10); (100, 100, 5, 5)] 5 (0, 0, 200, 200)).
  repeat constructor; simpl; lia.
Defined.

Lemma merge_into_None margin b merged :
  (forall m, In m merged -> near margin b m = false) ->
  merge_into margin b merged = None.
Proof.
  induction merged as [|m rest IH]; simpl; intros H; [reflexivity|].
  rewrite (H m) by now left.
  rewrite IH; [reflexivity|]. intros m' Hm'. apply H. now right.
Qed.

Lemma fold_merge_step_separated margin bs : forall merged,
  NoDup bs ->
  (forall b m, In b bs -> In m (merged ++ bs) -> b <> m ->
               near margin b m = false) ->
  (forall b, In b bs -> ~ In b merged) ->
  fold_left (merge_step margin) bs merged = merged ++ bs.
Proof.
  induction bs as [|b bs IH]; intros merged Hnd Hsep Hfresh; simpl.
  - now rewrite app_nil_r.
  - inversion Hnd as [|? ? Hnb Hnd']; subst.
    unfold merge_step at 2. rewrite merge_into_None.
    + rewrite IH; [now rewrite <- app_assoc|assumption| |].
      * intros b' m Hb' Hm Hne. apply Hsep; [now right| |assumption].
        rewrite <- app_assoc in Hm. exact Hm.
      * intros b' Hb' Hin. apply in_app_or in Hin. destruct Hin as [Hin|[<-|[]]].
        -- apply (Hfresh b'); [now right|assumption].
        -- contradiction.
    + intros m Hm. apply Hsep; [now left|apply in_or_app; now left|].
      intros <-. apply (Hfresh b); [now left|assumption].
Qed.

(** X3. Distinct boxes of which no two are near each other (within the
    margin on both axes) are returned unmerged, in (top, left) order. *)
Theorem separated_boxes_unmerged (boxes : list box) (margin : Z) :
  NoDup boxes ->
  (forall b m, In b boxes -> In m boxes -> b <> m -> near margin b m = false) ->
  _merge_overlapping_boxes boxes margin = sorted key_le boxes.
Proof.
  intros Hnd Hsep. unfold _merge_overlapping_boxes.
  destruct boxes as [|b0 rest] eqn:Eb; [reflexivity|]. rewrite <- Eb in *.
  pose proof (sorted_perm key_le boxes) as Hp.
  rewrite fold_merge_step_separated; [reflexivity| | |].
  - eapply Permutation_NoDup; eassumption.
  - simpl. intros b m Hb Hm Hne.
    apply Hsep; [| |assumption];
      eapply Permutation_in; try (apply Permutation_sym; exact Hp); assumption.
  - intros b _ [].
Qed.

Lemma separated_boxes_unmerged_witness :
  let boxes := [(100, 100, 5, 5); (0, 0, 10, 10); (50, 0, 10, 10)] in
  NoDup boxes /\
  _merge_overlapping_boxes boxes 5 = sorted key_le boxes /\
  sorted key_le boxes = [(0, 0, 10, 10); (50, 0, 10, 10); (100, 100, 5, 5)].
Proof.
  assert (Hnd : NoDup [(100, 100, 5, 5); (0, 0, 10, 10); (50, 0, 10, 10)]).
  { repeat constructor; simpl; intuition congruence. }
  split; [exact Hnd|]. split; [|reflexivity].
  apply (separated_boxes_unmerged
           [(100, 100, 5, 5); (0, 0, 10, 10); (50, 0, 10, 10)] 5 Hnd).
  intros b m Hb Hm Hne. simpl in Hb, Hm.
  destruct Hb as [<-|[<-|[<-|[]]]]; destruct Hm as [<-|[<-|[<-|[]]]];
    try reflexivity; congruence.
Defined.

End BoxMergerProperties.

Module RedactorProperties.
Import Py PyFacts Numpy NumpyFacts BoxMerger BoxMergerFacts Detection Redactor.
Import RedactorFacts Vocabulary.

(** X4. For an image with at least two axes [redact_text_regions]
    returns, and the array it returns has the shape, the dtype and the
    number of samples of the input. *)
Theorem redaction_keeps_geometry image detections padding h w rest :
  shape image = h :: w :: rest ->
  exists out,
    redact_text_regions image detections padding = Ok out /\
    shape out = shape image /\ dtype_of out = dtype_of image /\
    length (data out) = length (data image).
Proof.
  intros Hs.
  destruct (redact_returns image detections padding h w rest Hs) as [out H].
  exists out. split; [exact H|].
  exact (redact_preserves_geometry image detections padding out H).
Qed.

Lemma redaction_keeps_geometry_witness :
  let image := mk_ndarray uint8 [3; 3]%nat [1; 2; 3; 4; 5; 6; 7; 8; 9] in
  let detections :=
    Some [(Points [(1, 1); (2, 1); (2, 2); (1, 2)]%Q, "a"%string, 1%Q)] in
  exists out,
    redact_text_regions image detections 1 = Ok out /\
    shape out = shape image /\ dtype_of out = dtype_of image /\
    length (data out) = length (data image).
Proof.
  apply (redaction_keeps_geometry
           (mk_ndarray uint8 [3; 3]%nat [1; 2; 3; 4; 5; 6; 7; 8; 9])
           (Some [(Points [(1, 1); (2, 1); (2, 2); (1, 2)]%Q, "a"%string, 1%Q)])
           1 3%nat 3%nat []).
  reflexivity.
Defined.

(** X5. [redact_text_regions] raises nothing but IndexError, and that
    exactly when the image has fewer than two axes and there is a
    rectangle to paint. *)
Theorem redaction_error image detections padding e :
  redact_text_regions image detections padding = Raise e <->
  e = IndexError /\ (length (shape image) < 2)%nat /\
  redaction_boxes detections <> [].
Proof.
  unfold redact_text_regions.
  destruct (redaction_boxes detections) as [|b boxes].
  - split; [discriminate|]. intros (_ & _ & H). congruence.
  - destruct (shape image) as [|h [|w rest]]; simpl.
    + split; [intros [= <-]; repeat split; [lia|discriminate]|].
      now intros (-> & _ & _).
    + split; [intros [= <-]; repeat split; [lia|discriminate]|].
      now intros (-> & _ & _).
    + split; [discriminate|]. intros (_ & H & _). lia.
Qed.

(** X6. The array returned is a new object: every object that existed
    before the call, the input image among them, is unchanged, and the
    new object holds the redacted image. *)
Theorem redaction_leaves_input_untouched s image detections padding s' redacted :
  redact_text_regions_obj s image detections padding = Ok (s', redacted) ->
  redacted = length s /\ redacted <> image /\
  (forall o, (o < length s)%nat -> nth_error s' o = nth_error s o) /\
  exists img out,
    nth_error s image = Some img /\ nth_error s' redacted = Some out /\
    redact_text_regions img detections padding = Ok out.
Proof. apply redact_returns_new_object. Qed.

Lemma redaction_leaves_input_untouched_witness :
  let image := mk_ndarray uint8 [3; 3]%nat [1; 2; 3; 4; 5; 6; 7; 8; 9] in
  let out := mk_ndarray uint8 [3; 3]%nat [1; 2; 3; 4; 5; 5; 7; 5; 5] in
  let detections :=
    Some [(Points [(1, 1); (3, 1); (3, 3); (1, 3)]%Q, "a"%string, 1%Q)] in
  redact_text_regions_obj [image] 0 detections 0 = Ok ([image; out], 1%nat) /\
  1%nat = length [image] /\ 1%nat <> 0%nat /\
  (forall o, (o < length [image])%nat ->
             nth_error [image; out] o = nth_error [image] o) /\
  exists img out',
    nth_error [image] 0 = Some img /\ nth_error [image; out] 1 = Some out' /\
    redact_text_regions img detections 0 = Ok out'.
Proof.
  split; [reflexivity|].
  apply (redaction_leaves_input_untouched
           [mk_ndarray uint8 [3; 3]%nat [1; 2; 3; 4; 5; 6; 7; 8; 9]] 0
           (Some [(Points [(1, 1); (3, 1); (3, 3); (1, 3)]%Q, "a"%string, 1%Q)])
           0).
  reflexivity.
Defined.

(** X7. When no polygon has a negative coordinate and the padding is not
    negative, every sample outside the padded merged rectangles is the
    sample of the input. *)
Theorem redaction_frame image l padding out h w rest i :
  shape image = h :: w :: rest ->
  0 <= padding -> Forall nonneg_polygon l ->
  redact_text_regions image (Some l) padding = Ok out ->
  (forall b, In b (redaction_boxes (Some l)) ->
     ~ in_expanded padding b (row_of w (size_of rest) i)
                             (col_of w (size_of rest) i)) ->
  nth_error (data out) i = nth_error (data image) i.
Proof.
  intros Hs Hp Hl H Hout.
  destruct (redact_frame_nonneg image l padding out h w rest Hs Hp Hl H)
    as (_ & _ & Hf).
  now apply Hf.
Qed.

Lemma redaction_frame_witness :
  let image := mk_ndarray uint8 [3; 3]%nat [1; 2; 3; 4; 5; 6; 7; 8; 9] in
  let out := mk_ndarray uint8 [3; 3]%nat [1; 2; 3; 4; 5; 5; 7; 5; 5] in
  let l := [(Points [(1, 1); (3, 1); (3, 3); (1, 3)]%Q, "a"%string, 1%Q)] in
  redact_text_regions image (Some l) 0 = Ok out /\
  nth_error (data out) 0 = nth_error (data image) 0.
Proof.
  split; [reflexivity|].
  apply (redaction_frame
           (mk_ndarray uint8 [3; 3]%nat [1; 2; 3; 4; 5; 6; 7; 8; 9])
           [(Points [(1, 1); (3, 1); (3, 3); (1, 3)]%Q, "a"%string, 1%Q)]
           0
           (mk_ndarray uint8 [3; 3]%nat [1; 2; 3; 4; 5; 5; 7; 5; 5])
           3%nat 3%nat [] 0%nat).
  - reflexivity.
  - lia.
  - repeat constructor; simpl; discriminate.
  - reflexivity.
  - intros b Hb. vm_compute in Hb. destruct Hb as [<-|[]].
    unfold in_expanded, row_of, col_of. simpl. lia.
Defined.

Lemma selects_of_in_expanded padding h w inner b i :
  in_image h w (row_of w inner i) (col_of w inner i) ->
  in_expanded padding b (row_of w inner i) (col_of w inner i) ->
  selects padding h w inner b i = true.
Proof.
  destruct b as [[[x y] bw] bh]. unfold in_image, in_expanded, selects, in_slice.
  generalize (row_of w inner i) (col_of w inner i). intros r c [Hr Hc] [Hx Hy].
  rewrite !slice_index_nonneg by lia.
  rewrite !andb_true_iff, !Z.leb_le, !Z.ltb_lt. lia.
Qed.

Lemma index_in_image a h w rest i :
  shape a = h :: w :: rest -> well_formed a ->
  (i < length (data a))%nat ->
  in_image h w (row_of w (size_of rest) i) (col_of w (size_of rest) i).
Proof.
  unfold well_formed, in_image, row_of, col_of. intros Hs Hwf Hi.
  rewrite Hwf, Hs in Hi. simpl in Hi.
  set (inner := size_of rest) in *.
  assert (Hinner : inner <> 0%nat) by (intros E; rewrite E in Hi; lia).
  assert (Hw : w <> 0%nat) by (intros E; rewrite E in Hi; simpl in Hi; lia).
  assert (Hrow : (i / inner / w < h)%nat).
  { apply Nat.Div0.div_lt_upper_bound. apply Nat.Div0.div_lt_upper_bound. lia. }
  pose proof (Nat.mod_upper_bound (i / inner) w Hw). lia.
Qed.

(** X8. Every sample of the image that lies in the padded bounding
    rectangle of a detection with non-blank text and a usable polygon is
    overwritten with the fill colour, for any padding that is not
    negative. *)
Theorem detections_are_painted image l padding out h w rest d b i :
  shape image = h :: w :: rest -> well_formed image ->
  0 <= padding ->
  redact_text_regions image (Some l) padding = Ok out ->
  In d l -> detection_box d = Some b ->
  (i < length (data image))%nat ->
  in_expanded padding b (row_of w (size_of rest) i) (col_of w (size_of rest) i) ->
  nth_error (data out) i =
    Some (fill_at (median_val image) (i mod size_of rest)).
Proof.
  intros Hs Hwf Hp H Hd Hb Hi Hin.
  assert (Hcb : In b (collect_boxes (Some l))).
  { simpl. apply in_flat_map. exists d. split; [exact Hd|]. rewrite Hb. now left. }
  assert (Hm : exists m, In m (redaction_boxes (Some l)) /\ contained b m).
  { unfold redaction_boxes.
    destruct (collect_boxes (Some l)) as [|b0 boxes] eqn:E; [contradiction|].
    apply (proj1 (merge_covers_all (b0 :: boxes) 5)). exact Hcb. }
  destruct Hm as (m & Hm & Hbm).
  assert (Hsel : selects padding h w (size_of rest) m i = true).
  { apply selects_of_in_expanded.
    - eapply index_in_image; eassumption.
    - destruct b as [[[x y] bw] bh], m as [[[mx my] mw] mh].
      unfold in_expanded, contained in *. lia. }
  destruct (redact_text_regions_spec _ _ _ _ H)
    as [[Hnil _]|(h' & w' & rest' & Hs' & ->)].
  - rewrite Hnil in Hm. contradiction.
  - rewrite Hs in Hs'. injection Hs' as <- <- <-. simpl.
    unfold mapi. rewrite mapi_from_nth_error. simpl.
    destruct (nth_error (data image) i) eqn:En;
      [|apply nth_error_None in En; lia].
    simpl. unfold painted.
    replace (existsb _ _) with true; [reflexivity|].
    symmetry. apply existsb_exists. now exists m.
Qed.

Lemma detections_are_painted_witness :
  let image := mk_ndarray uint8 [3; 3]%nat [1; 2; 3; 4; 5; 6; 7; 8; 9] in
  let out := mk_ndarray uint8 [3; 3]%nat [1; 2; 3; 4; 5; 5; 7; 5; 5] in
  let d := (Points [(1, 1); (3, 1); (3, 3); (1, 3)]%Q, "a"%string, 1%Q) in
  redact_text_regions image (Some [d]) 0 = Ok out /\
  detection_box d = Some (1, 1, 2, 2) /\
  nth_error (data out) 8 = Some (fill_at (median_val image) (8 mod 1)).
Proof.
  split; [reflexivity|]. split; [reflexivity|].
  apply (detections_are_painted
           (mk_ndarray uint8 [3; 3]%nat [1; 2; 3; 4; 5; 6; 7; 8; 9])
           [(Points [(1, 1); (3, 1); (3, 3); (1, 3)]%Q, "a"%string, 1%Q)]
           0
           (mk_ndarray uint8 [3; 3]%nat [1; 2; 3; 4; 5; 5; 7; 5; 5])
           3%nat 3%nat []
           (Points [(1, 1); (3, 1); (3, 3); (1, 3)]%Q, "a"%string, 1%Q)
           (1, 1, 2, 2) 8%nat).
  - reflexivity.
  - reflexivity.
  - lia.
  - reflexivity.
  - now left.
  - reflexivity.
  - simpl. lia.
  - unfold in_expanded, row_of, col_of. simpl. lia.
Defined.

(** X9. Redaction of a raster that is not 3-D, holds an odd number of
    samples and only values of its dtype is idempotent: the median is
    then a sample of the raster and stays the median after the painting. *)
Theorem odd_raster_redaction_idempotent image detections padding out :
  length (shape image) <> 3%nat ->
  Nat.odd (length (data image)) = true ->
  in_dtype_range image ->
  redact_text_regions image detections padding = Ok out ->
  redact_text_regions out detections padding = Ok out.
Proof. apply redact_idempotent_odd. Qed.

Lemma odd_raster_redaction_idempotent_witness :
  let image := mk_ndarray uint8 [3; 3]%nat [1; 2; 3; 4; 5; 6; 7; 8; 9] in
  let out := mk_ndarray uint8 [3; 3]%nat [1; 2; 3; 4; 5; 5; 7; 5; 5] in
  let detections :=
    Some [(Points [(1, 1); (3, 1); (3, 3); (1, 3)]%Q, "a"%string, 1%Q)] in
  redact_text_regions image detections 0 = Ok out /\
  redact_text_regions out detections 0 = Ok out.
Proof.
  split; [reflexivity|].
  apply (odd_raster_redaction_idempotent
           (mk_ndarray uint8 [3; 3]%nat [1; 2; 3; 4; 5; 6; 7; 8; 9])
           (Some [(Points [(1, 1); (3, 1); (3, 3); (1, 3)]%Q, "a"%string, 1%Q)])
           0).
  - simpl. discriminate.
  - reflexivity.
  - repeat constructor.
  - reflexivity.
Defined.

Lemma skipped_no_box d : skipped d -> detection_box d = None.
Proof.
  destruct d as [[bb text] conf]. unfold skipped, detection_box.
  intros [Ht|Hb].
  - now rewrite Ht.
  - destruct (negb (strip_nonempty text)); [reflexivity|].
    destruct bb as [|[|[px py] rest]|]; try reflexivity.
    apply Nat.ltb_lt in Hb. now rewrite Hb.
Qed.

(** X10. Detections with blank text, without a bounding box, or with
    fewer than four points are not redacted: when every detection is of
    that kind, the redacted image is the input image. *)
Theorem skipped_detections_not_redacted image l padding :
  Forall skipped l ->
  redact_text_regions image (Some l) padding = Ok image.
Proof.
  intros H. unfold redact_text_regions, redaction_boxes.
  replace (collect_boxes (Some l)) with (@nil box); [reflexivity|].
  simpl. induction H as [|d l Hd _ IH]; simpl; [reflexivity|].
  now rewrite (skipped_no_box d Hd).
Qed.

Lemma skipped_detections_not_redacted_witness :
  let image := mk_ndarray uint8 [3; 3]%nat [1; 2; 3; 4; 5; 6; 7; 8; 9] in
  let l := [(Points [(1, 1); (3, 1); (3, 3); (1, 3)]%Q, "  "%string, 1%Q);
            (NoBox, "a"%string, 1%Q);
            (Points [(1, 1); (3, 3)]%Q, "b"%string, 1%Q)] in
  Forall skipped l /\ redact_text_regions image (Some l) 0 = Ok image.
Proof.
  assert (H : Forall skipped
                [(Points [(1, 1); (3, 1); (3, 3); (1, 3)]%Q, "  "%string, 1%Q);
                 (NoBox, "a"%string, 1%Q);
                 (Points [(1, 1); (3, 3)]%Q, "b"%string, 1%Q)]).
  { constructor; [left; reflexivity|].
    constructor; [right; exact I|].
    constructor; [right; simpl; lia|constructor]. }
  split; [exact H|].
  exact (skipped_detections_not_redacted
           (mk_ndarray uint8 [3; 3]%nat [1; 2; 3; 4; 5; 6; 7; 8; 9]) _ 0 H).
Defined.

End RedactorProperties.

Module NormalizerProperties.
Import Py PyFacts Numpy NumpyFacts Dicom BoxMerger Detection Redactor Pipeline.
Import PipelineFacts Vocabulary.

(** The value of the window rescale, for a window of positive width. *)
Lemma rescale_window_value lower upper v :
  (lower < upper)%Q ->
  rescale_window lower upper v =
    Ok (Qfloor ((np_clip v lower upper - lower) / (upper - lower) * 255)).
Proof.
  intros Hlt.
  destruct (rescale_value_range v lower upper Hlt) as [H0 H1].
  destruct (astype_uint8_in_range _ H0 H1) as [Ha _].
  unfold rescale_window, np_divide.
  destruct (Qeq_bool (upper - lower) 0) eqn:E.
  - exfalso. apply Qeq_bool_eq in E.
    assert (Hd : (0 < upper - lower)%Q).
    { unfold Qminus. rewrite <- (Qplus_opp_r lower).
      apply Qplus_lt_le_compat; [exact Hlt|apply Qle_refl]. }
    rewrite E in Hd. discriminate.
  - unfold bind. now rewrite Ha.
Qed.

Lemma np_clip_below v lower upper :
  (lower <= upper)%Q -> (v <= lower)%Q -> (np_clip v lower upper == lower)%Q.
Proof.
  intros Hlu Hv. apply Qle_antisym.
  - unfold np_clip. eapply Qle_trans; [apply Q.le_min_l|].
    apply Q.max_lub; [exact Hv|apply Qle_refl].
  - apply np_clip_bounds; exact Hlu.
Qed.

Lemma np_clip_above v lower upper :
  (lower <= upper)%Q -> (upper <= v)%Q -> (np_clip v lower upper == upper)%Q.
Proof.
  intros Hlu Hv. apply Qle_antisym.
  - apply np_clip_bounds; exact Hlu.
  - unfold np_clip. apply Q.min_glb; [|apply Qle_refl].
    eapply Qle_trans; [exact Hv|apply Q.le_max_l].
Qed.

Lemma np_clip_monotone v v' lower upper :
  (v <= v')%Q -> (np_clip v lower upper <= np_clip v' lower upper)%Q.
Proof.
  intros H. unfold np_clip.
  apply Q.min_le_compat_r, Q.max_le_compat_r, H.
Qed.

Lemma width_positive lower upper : (lower < upper)%Q -> (0 < upper - lower)%Q.
Proof.
  intros H. unfold Qminus. rewrite <- (Qplus_opp_r lower).
  apply Qplus_lt_le_compat; [exact H|apply Qle_refl].
Qed.

Lemma rescale_window_saturates lower upper v :
  (lower < upper)%Q ->
  ((v <= lower)%Q -> rescale_window lower upper v = Ok 0) /\
  ((upper <= v)%Q -> rescale_window lower upper v = Ok 255).
Proof.
  intros Hlt. pose proof (width_positive lower upper Hlt) as Hd.
  rewrite (rescale_window_value lower upper v Hlt).
  split; intros Hv; f_equal.
  - rewrite (Qfloor_comp _ 0); [reflexivity|].
    rewrite (np_clip_below v lower upper (Qlt_le_weak _ _ Hlt) Hv).
    field. intros E. rewrite E in Hd. discriminate.
  - rewrite (Qfloor_comp _ 255); [reflexivity|].
    rewrite (np_clip_above v lower upper (Qlt_le_weak _ _ Hlt) Hv).
    field. intros E. rewrite E in Hd. discriminate.
Qed.

(** X11. The window clips: with [lower < upper], every sample at or below
    the lower bound becomes 0 and every sample at or above the upper bound
    becomes 255, so two samples on the same side of the window are not
    told apart. *)
Theorem window_clips (lower upper v : Q) :
  (lower < upper)%Q ->
  ((v <= lower)%Q -> rescale_window lower upper v = Ok 0) /\
  ((upper <= v)%Q -> rescale_window lower upper v = Ok 255).
Proof. apply rescale_window_saturates. Qed.

Lemma window_clips_witness :
  (150 < 250)%Q /\
  (((100 <= 150)%Q -> rescale_window 150 250 100 = Ok 0) /\
   ((250 <= 100)%Q -> rescale_window 150 250 100 = Ok 255)) /\
  rescale_window 150 250 100 = Ok 0 /\ rescale_window 150 250 105 = Ok 0.
Proof.
  split; [reflexivity|]. split.
  - apply (window_clips 150 250 100). reflexivity.
  - split; reflexivity.
Defined.

(** X12. The window rescale is monotone: a larger sample never gets a
    smaller 8-bit value. *)
Theorem window_monotone (lower upper v v' : Q) :
  (lower < upper)%Q -> (v <= v')%Q ->
  exists a b,
    rescale_window lower upper v = Ok a /\
    rescale_window lower upper v' = Ok b /\ a <= b.
Proof.
  intros Hlt Hv. pose proof (width_positive lower upper Hlt) as Hd.
  rewrite !(rescale_window_value lower upper _ Hlt).
  do 2 eexists. split; [reflexivity|]. split; [reflexivity|].
  apply Qfloor_resp_le.
  apply Qmult_le_compat_r; [|discriminate].
  apply Qmult_le_compat_r; [|apply Qinv_le_0_compat, Qlt_le_weak, Hd].
  apply Qplus_le_compat; [|apply Qle_refl].
  now apply np_clip_monotone.
Qed.

Lemma window_monotone_witness :
  (0 < 4)%Q /\ (1 <= 3)%Q /\
  exists a b,
    rescale_window 0 4 1 = Ok a /\ rescale_window 0 4 3 = Ok b /\ a <= b.
Proof.
  split; [reflexivity|]. split; [discriminate|].
  apply (window_monotone 0 4 1 3); [reflexivity|discriminate].
Defined.

Lemma np_clip_inside v lower upper :
  (lower <= v)%Q -> (v <= upper)%Q -> (np_clip v lower upper == v)%Q.
Proof.
  intros Hl Hu. unfold np_clip.
  rewrite Q.min_l; [apply Q.max_l, Hl|].
  apply Q.max_lub; [exact Hu|eapply Qle_trans; eassumption].
Qed.

Lemma fold_Qmin_le l : forall a,
  (fold_left Qmin l a <= a)%Q /\ Forall (fun x => fold_left Qmin l a <= x)%Q l.
Proof.
  induction l as [|q l IH]; intros a; simpl; [split; [apply Qle_refl|constructor]|].
  destruct (IH (Qmin a q)) as [H1 H2]. split.
  - eapply Qle_trans; [exact H1|apply Q.le_min_l].
  - constructor; [eapply Qle_trans; [exact H1|apply Q.le_min_r]|exact H2].
Qed.

Lemma fold_Qmax_ge l : forall a,
  (a <= fold_left Qmax l a)%Q /\ Forall (fun x => x <= fold_left Qmax l a)%Q l.
Proof.
  induction l as [|q l IH]; intros a; simpl; [split; [apply Qle_refl|constructor]|].
  destruct (IH (Qmax a q)) as [H1 H2]. split.
  - eapply Qle_trans; [apply Q.le_max_l|exact H1].
  - constructor; [eapply Qle_trans; [apply Q.le_max_r|exact H1]|exact H2].
Qed.

Lemma np_minq_le values mn v :
  np_minq values = Ok mn -> In v values -> (mn <= v)%Q.
Proof.
  destruct values as [|a l]; [discriminate|]. intros [= <-] [<-|Hin].
  - apply fold_Qmin_le.
  - destruct (fold_Qmin_le l a) as [_ H]. rewrite Forall_forall in H. now apply H.
Qed.

Lemma np_maxq_ge values mx v :
  np_maxq values = Ok mx -> In v values -> (v <= mx)%Q.
Proof.
  destruct values as [|a l]; [discriminate|]. intros [= <-] [<-|Hin].
  - apply fold_Qmax_ge.
  - destruct (fold_Qmax_ge l a) as [_ H]. rewrite Forall_forall in H. now apply H.
Qed.

Lemma standard_window_fallback ds values :
  WindowCenter ds = None \/ WindowWidth ds = None ->
  standard_window ds values = data_window values.
Proof.
  unfold standard_window. intros [-> | ->]; [reflexivity|].
  now destruct (WindowCenter ds).
Qed.

(** X13. Without window tags the standard strategy stretches the data:
    for data with [min < max] the window bounds are the minimum and the
    maximum, the minimum becomes 0 and the maximum 255. *)
Theorem fallback_window_stretches ds values mn mx :
  WindowCenter ds = None \/ WindowWidth ds = None ->
  np_minq values = Ok mn -> np_maxq values = Ok mx -> (mn < mx)%Q ->
  exists cw,
    standard_window ds values = Ok cw /\
    (fst (window_bounds cw) == mn)%Q /\ (snd (window_bounds cw) == mx)%Q /\
    rescale_window (fst (window_bounds cw)) (snd (window_bounds cw)) mn = Ok 0 /\
    rescale_window (fst (window_bounds cw)) (snd (window_bounds cw)) mx = Ok 255.
Proof.
  intros Htags Hmn Hmx Hlt.
  rewrite (standard_window_fallback ds values Htags).
  unfold data_window. rewrite Hmn, Hmx. simpl.
  assert (E : Qle_bool mx mn = false).
  { destruct (Qle_bool mx mn) eqn:E; [|reflexivity].
    apply Qle_bool_iff in E. exfalso. apply (Qlt_irrefl mn).
    eapply Qlt_le_trans; eassumption. }
  rewrite E. simpl. eexists. split; [reflexivity|]. simpl.
  assert (Hl : (((mn + mx) / 2 - (mx - mn) / 2) == mn)%Q) by field.
  assert (Hu : (((mn + mx) / 2 + (mx - mn) / 2) == mx)%Q) by field.
  split; [exact Hl|]. split; [exact Hu|].
  assert (Hb : ((mn + mx) / 2 - (mx - mn) / 2 < (mn + mx) / 2 + (mx - mn) / 2)%Q)
    by (rewrite Hl, Hu; exact Hlt).
  split.
  - apply (rescale_window_saturates _ _ mn Hb). rewrite Hl. apply Qle_refl.
  - apply (rescale_window_saturates _ _ mx Hb). rewrite Hu. apply Qle_refl.
Qed.

Lemma fallback_window_stretches_witness :
  let ds := mk_dataset (Some 1) (Some 8) None None (Some "MONOCHROME2"%string) in
  let values := map inject_Z [100; 105; 200] in
  exists cw,
    standard_window ds values = Ok cw /\
    (fst (window_bounds cw) == 100)%Q /\ (snd (window_bounds cw) == 200)%Q /\
    rescale_window (fst (window_bounds cw)) (snd (window_bounds cw)) 100 = Ok 0 /\
    rescale_window (fst (window_bounds cw)) (snd (window_bounds cw)) 200 = Ok 255.
Proof.
  apply (fallback_window_stretches
           (mk_dataset (Some 1) (Some 8) None None (Some "MONOCHROME2"%string))
           (map inject_Z [100; 105; 200]) 100 200).
  - left; reflexivity.
  - reflexivity.
  - reflexivity.
  - reflexivity.
Defined.

(** X14. Without window tags, a constant image (maximum equal to
    minimum) gets the width 1.0 and every sample becomes 127 in the
    standard strategy; no division by zero occurs. *)
Theorem constant_image_becomes_127 ds values mn mx v :
  WindowCenter ds = None \/ WindowWidth ds = None ->
  np_minq values = Ok mn -> np_maxq values = Ok mx -> (mx <= mn)%Q ->
  In v values ->
  exists cw,
    standard_window ds values = Ok cw /\
    (snd cw == 1)%Q /\
    rescale_window (fst (window_bounds cw)) (snd (window_bounds cw)) v = Ok 127.
Proof.
  intros Htags Hmn Hmx Hle Hv.
  rewrite (standard_window_fallback ds values Htags).
  unfold data_window. rewrite Hmn, Hmx. simpl.
  apply Qle_bool_iff in Hle. rewrite Hle. simpl.
  apply Qle_bool_iff in Hle.
  eexists. split; [reflexivity|]. split; [reflexivity|]. simpl.
  pose proof (np_minq_le values mn v Hmn Hv) as H1.
  pose proof (np_maxq_ge values mx v Hmx Hv) as H2.
  assert (Evm : (v == mn)%Q)
    by (apply Qle_antisym; [eapply Qle_trans; eassumption|exact H1]).
  assert (Exm : (mx == mn)%Q)
    by (apply Qle_antisym; [exact Hle|eapply Qle_trans; eassumption]).
  set (lower := ((mn + mx) / 2 - 1 / 2)%Q).
  set (upper := ((mn + mx) / 2 + 1 / 2)%Q).
  assert (Hl : (lower == v - (1 # 2))%Q) by (unfold lower; rewrite Exm, Evm; field).
  assert (Hu : (upper == v + (1 # 2))%Q) by (unfold upper; rewrite Exm, Evm; field).
  assert (Hlv : (lower <= v)%Q).
  { rewrite Hl. apply Qle_minus_iff.
    setoid_replace (v + - (v - (1 # 2)))%Q with (1 # 2)%Q by ring. discriminate. }
  assert (Hvu : (v <= upper)%Q).
  { rewrite Hu. apply Qle_minus_iff.
    setoid_replace (v + (1 # 2) + - v)%Q with (1 # 2)%Q by ring. discriminate. }
  assert (Hb : (lower < upper)%Q).
  { rewrite Hl, Hu. apply Qlt_minus_iff.
    setoid_replace (v + (1 # 2) + - (v - (1 # 2)))%Q with 1%Q by ring.
    reflexivity. }
  rewrite (rescale_window_value lower upper v Hb). f_equal.
  rewrite (Qfloor_comp _ (255 # 2)); [reflexivity|].
  rewrite (np_clip_inside v lower upper Hlv Hvu), Hl, Hu. field.
  setoid_replace (v + (1 # 2) - (v - (1 # 2)))%Q with 1%Q by ring. discriminate.
Qed.

Lemma constant_image_becomes_127_witness :
  let ds := mk_dataset (Some 1) (Some 8) None None (Some "MONOCHROME2"%string) in
  let values := map inject_Z [7; 7; 7] in
  exists cw,
    standard_window ds values = Ok cw /\
    (snd cw == 1)%Q /\
    rescale_window (fst (window_bounds cw)) (snd (window_bounds cw)) 7 = Ok 127.
Proof.
  apply (constant_image_becomes_127
           (mk_dataset (Some 1) (Some 8) None None (Some "MONOCHROME2"%string))
           (map inject_Z [7; 7; 7]) 7 7 7).
  - left; reflexivity.
  - reflexivity.
  - reflexivity.
  - discriminate.
  - now left.
Defined.

Lemma traverse_map {A B} (f : A -> result B) (g : A -> B) l :
  (forall a, In a l -> f a = Ok (g a)) -> traverse f l = Ok (map g l).
Proof.
  induction l as [|a l IH]; intros H; simpl; [reflexivity|].
  rewrite (H a) by now left. simpl.
  rewrite IH; [reflexivity|]. intros a' Ha'. apply H. now right.
Qed.

Lemma clahe_window_full_range ds :
  WindowCenter ds = None \/ WindowWidth ds = None \/
  8 < match BitsStored ds with Some b => b | None => 8 end ->
  clahe_window ds = (128%Q, 256%Q).
Proof.
  unfold clahe_window. intros [-> | [-> | H]].
  - reflexivity.
  - now destruct (WindowCenter ds).
  - apply Z.ltb_lt in H. rewrite H.
    destruct (WindowCenter ds), (WindowWidth ds); reflexivity.
Qed.

Lemma full_range_sample v :
  0 <= v <= 255 ->
  rescale_window (fst (window_bounds (128, 256)%Q))
                 (snd (window_bounds (128, 256)%Q)) (inject_Z v)
  = Ok (if v =? 0 then 0 else v - 1).
Proof.
  intros H.
  assert (Hall :
    forallb (fun n =>
               match rescale_window (fst (window_bounds (128, 256)%Q))
                                    (snd (window_bounds (128, 256)%Q))
                                    (inject_Z (Z.of_nat n)) with
               | Ok z => z =? (if Z.of_nat n =? 0 then 0 else Z.of_nat n - 1)
               | Raise _ => false
               end) (seq 0 256) = true) by (vm_compute; reflexivity).
  rewrite forallb_forall in Hall.
  specialize (Hall (Z.to_nat v)). rewrite Z2Nat.id in Hall by lia.
  destruct (rescale_window _ _ (inject_Z v)) as [z|e].
  - f_equal. apply Z.eqb_eq, Hall, in_seq. lia.
  - discriminate Hall. apply in_seq. lia.
Qed.

(** X15. In the CLAHE strategy, when a window tag is missing or
    BitsStored exceeds 8, the window step maps each CLAHE sample [v] of
    0..255 to [v * 255 / 256]: zero stays zero and every other sample is
    lowered by one, so the windowed image never holds 255. *)
Theorem full_range_window_decrements
        (clahe_apply : ndarray -> result ndarray)
        (ds : Dataset) (pixel_array p8 clahe_applied : ndarray) :
  WindowCenter ds = None \/ WindowWidth ds = None \/
  8 < match BitsStored ds with Some b => b | None => 8 end ->
  to_uint8_full_range pixel_array = Ok p8 ->
  clahe_apply p8 = Ok clahe_applied ->
  uint8_samples (data clahe_applied) ->
  clahe_windowed clahe_apply ds pixel_array =
    Ok (mk_ndarray uint8 (shape clahe_applied)
          (map (fun v => if v =? 0 then 0 else v - 1) (data clahe_applied))).
Proof.
  intros Htags Hp8 Hca Hr. unfold clahe_windowed.
  rewrite Hp8. simpl. rewrite Hca. simpl.
  rewrite (clahe_window_full_range ds Htags).
  change (let '(lower, upper) := window_bounds (128, 256)%Q in
          bind (traverse (rescale_window lower upper)
                         (map inject_Z (data clahe_applied)))
               (fun normalized =>
                  Ok (mk_ndarray uint8 (shape clahe_applied) normalized)))
    with (bind (traverse (rescale_window (fst (window_bounds (128, 256)%Q))
                                         (snd (window_bounds (128, 256)%Q)))
                         (map inject_Z (data clahe_applied)))
               (fun normalized =>
                  Ok (mk_ndarray uint8 (shape clahe_applied) normalized))).
  rewrite (traverse_map _ (fun q => if Qfloor q =? 0 then 0 else Qfloor q - 1)).
  - unfold bind. rewrite map_map. do 2 f_equal.
    apply map_ext. intros v. cbv beta. now rewrite Qfloor_Z.
  - intros q Hq. apply in_map_iff in Hq. destruct Hq as (v & <- & Hv).
    cbv beta. rewrite Qfloor_Z. apply full_range_sample.
    unfold uint8_samples in Hr. rewrite Forall_forall in Hr. now apply Hr.
Qed.

Lemma full_range_window_decrements_witness :
  let ds := mk_dataset (Some 1) (Some 16) (Some (Single 40000))
                       (Some (Single 10000)) (Some "MONOCHROME2"%string) in
  let pixel_array := mk_ndarray uint8 [2; 2]%nat [0; 1; 128; 255] in
  clahe_windowed (fun a => Ok a) ds pixel_array =
    Ok (mk_ndarray uint8 [2; 2]%nat [0; 0; 127; 254]).
Proof.
  apply (full_range_window_decrements (fun a => Ok a)
           (mk_dataset (Some 1) (Some 16) (Some (Single 40000))
                       (Some (Single 10000)) (Some "MONOCHROME2"%string))
           (mk_ndarray uint8 [2; 2]%nat [0; 1; 128; 255])
           (mk_ndarray uint8 [2; 2]%nat [0; 1; 128; 255])
           (mk_ndarray uint8 [2; 2]%nat [0; 1; 128; 255])).
  - right; right. simpl. lia.
  - reflexivity.
  - reflexivity.
  - repeat constructor; simpl; lia.
Defined.

Lemma fold_min_le l : forall a,
  fold_left Z.min l a <= a /\ Forall (fun x => fold_left Z.min l a <= x) l.
Proof.
  induction l as [|q l IH]; intros a; simpl; [split; [lia|constructor]|].
  destruct (IH (Z.min a q)) as [H1 H2]. split; [lia|].
  constructor; [lia|exact H2].
Qed.

Lemma fold_max_ge l : forall a,
  a <= fold_left Z.max l a /\ Forall (fun x => x <= fold_left Z.max l a) l.
Proof.
  induction l as [|q l IH]; intros a; simpl; [split; [lia|constructor]|].
  destruct (IH (Z.max a q)) as [H1 H2]. split; [lia|].
  constructor; [lia|exact H2].
Qed.

Lemma np_min_le l mn v : np_min l = Ok mn -> In v l -> mn <= v.
Proof.
  destruct l as [|a l]; [discriminate|]. intros [= <-] [<-|Hin].
  - apply fold_min_le.
  - destruct (fold_min_le l a) as [_ H]. rewrite Forall_forall in H. now apply H.
Qed.

Lemma np_max_ge l mx v : np_max l = Ok mx -> In v l -> v <= mx.
Proof.
  destruct l as [|a l]; [discriminate|]. intros [= <-] [<-|Hin].
  - apply fold_max_ge.
  - destruct (fold_max_ge l a) as [_ H]. rewrite Forall_forall in H. now apply H.
Qed.

Lemma wrap_unsigned_range dt v :
  dt = uint8 \/ dt = uint16 -> wrap dt v = v ->
  0 <= v /\ forall z, 0 <= z <= v -> wrap dt z = z.
Proof.
  intros [-> | ->] H; unfold wrap in *.
  - pose proof (Z.mod_pos_bound v 256). split; [lia|].
    intros z Hz. apply Z.mod_small. lia.
  - pose proof (Z.mod_pos_bound v 65536). split; [lia|].
    intros z Hz. apply Z.mod_small. lia.
Qed.

(** The min-max rescale of one sample of an unsigned array. *)
Lemma rescale_minmax_unsigned dt mn mx v :
  dt = uint8 \/ dt = uint16 ->
  wrap dt mx = mx -> mn < mx -> 0 <= mn <= v -> v <= mx ->
  rescale_minmax dt mn mx v = Ok ((v - mn) * 255 / (mx - mn)) /\
  0 <= (v - mn) * 255 / (mx - mn) <= 255.
Proof.
  intros Hdt Hmx Hlt Hmn Hv.
  destruct (wrap_unsigned_range dt mx Hdt Hmx) as [_ Hw].
  assert (Hr : 0 <= (v - mn) * 255 / (mx - mn) <= 255).
  { split; [apply Z.div_pos; lia|].
    apply Z.div_le_upper_bound; lia. }
  split; [|exact Hr].
  unfold rescale_minmax, np_divide.
  rewrite !Hw by lia.
  destruct (Qeq_bool (inject_Z (mx - mn)) 0) eqn:E.
  - apply Qeq_bool_eq in E. unfold Qeq in E. simpl in E. lia.
  - unfold bind. f_equal.
    assert (Hq : (inject_Z (v - mn) / inject_Z (mx - mn) * 255 ==
                  inject_Z ((v - mn) * 255) / inject_Z (mx - mn))%Q).
    { rewrite inject_Z_mult. field.
      intros E'. unfold Qeq in E'. simpl in E'. lia. }
    assert (H0 : (0 <= inject_Z (v - mn) / inject_Z (mx - mn) * 255)%Q).
    { apply Qmult_le_0_compat; [|discriminate].
      apply Qle_shift_div_l.
      - unfold Qlt; simpl; lia.
      - rewrite Qmult_0_l. unfold Qle; simpl; lia. }
    unfold astype, wrap. rewrite int_of_float_nonneg by exact H0.
    rewrite (Qfloor_comp _ _ Hq), <- Zdiv_Qdiv.
    apply Z.mod_small. lia.
Qed.

(** X16. A 16-bit unsigned array with [min < max] is rescaled over its
    whole range: every sample [v] becomes [(v - min) * 255 / (max - min)]
    (integer division), so the minimum becomes 0, the maximum 255 and no
    part of the range is cut off before CLAHE. *)
Theorem full_range_rescale_uint16 pixel_array mn mx :
  dtype_of pixel_array = uint16 -> in_dtype_range pixel_array ->
  np_min (data pixel_array) = Ok mn -> np_max (data pixel_array) = Ok mx ->
  mn < mx ->
  to_uint8_full_range pixel_array =
    Ok (mk_ndarray uint8 (shape pixel_array)
          (map (fun v => (v - mn) * 255 / (mx - mn)) (data pixel_array))).
Proof.
  intros Hdt Hr Hmn Hmx Hlt. unfold to_uint8_full_range.
  rewrite Hdt, Hmn, Hmx. simpl.
  apply Z.ltb_lt in Hlt. rewrite Hlt. apply Z.ltb_lt in Hlt.
  unfold in_dtype_range in Hr. rewrite Hdt, Forall_forall in Hr.
  rewrite (traverse_map _ (fun v => (v - mn) * 255 / (mx - mn))); [reflexivity|].
  intros v Hv.
  apply rescale_minmax_unsigned.
  - now right.
  - apply Hr, np_max_In, Hmx.
  - exact Hlt.
  - split; [|now apply (np_min_le (data pixel_array))].
    apply (wrap_unsigned_range uint16 mn); [now right|].
    apply Hr, np_min_In, Hmn.
  - now apply (np_max_ge (data pixel_array)).
Qed.

Lemma full_range_rescale_uint16_witness :
  let pixel_array := mk_ndarray uint16 [2; 2]%nat [0; 20000; 20500; 65535] in
  to_uint8_full_range pixel_array =
    Ok (mk_ndarray uint8 [2; 2]%nat
          (map (fun v => (v - 0) * 255 / (65535 - 0)) [0; 20000; 20500; 65535])) /\
  map (fun v => (v - 0) * 255 / (65535 - 0)) [0; 20000; 20500; 65535]
    = [0; 77; 79; 255].
Proof.
  split; [|reflexivity].
  apply (full_range_rescale_uint16
           (mk_ndarray uint16 [2; 2]%nat [0; 20000; 20500; 65535]) 0 65535).
  - reflexivity.
  - repeat constructor.
  - reflexivity.
  - reflexivity.
  - lia.
Defined.

(** X17. The final contrast stretch of the detection raster: an 8-bit
    image with [min < max] is stretched to [(v - min) * 255 / (max - min)],
    and a constant image is returned as it is, without any division. *)
Theorem contrast_stretch_spec enhanced mn mx :
  dtype_of enhanced = uint8 -> in_dtype_range enhanced ->
  np_min (data enhanced) = Ok mn -> np_max (data enhanced) = Ok mx ->
  contrast_stretch enhanced =
    Ok (if mn <? mx
        then mk_ndarray uint8 (shape enhanced)
               (map (fun v => (v - mn) * 255 / (mx - mn)) (data enhanced))
        else enhanced).
Proof.
  intros Hdt Hr Hmn Hmx. unfold contrast_stretch.
  rewrite Hmn, Hmx. simpl.
  destruct (Z.ltb_spec mn mx) as [Hlt|Hge]; [|reflexivity].
  unfold in_dtype_range in Hr. rewrite Hdt, Forall_forall in Hr.
  rewrite Hdt.
  rewrite (traverse_map _ (fun v => (v - mn) * 255 / (mx - mn))); [reflexivity|].
  intros v Hv.
  apply rescale_minmax_unsigned.
  - now left.
  - apply Hr, np_max_In, Hmx.
  - exact Hlt.
  - split; [|now apply (np_min_le (data enhanced))].
    apply (wrap_unsigned_range uint8 mn); [now left|].
    apply Hr, np_min_In, Hmn.
  - now apply (np_max_ge (data enhanced)).
Qed.

Lemma contrast_stretch_spec_witness :
  let enhanced := mk_ndarray uint8 [2; 2]%nat [10; 20; 30; 110] in
  contrast_stretch enhanced =
    Ok (if 10 <? 110
        then mk_ndarray uint8 [2; 2]%nat
               (map (fun v => (v - 10) * 255 / (110 - 10)) [10; 20; 30; 110])
        else enhanced) /\
  map (fun v => (v - 10) * 255 / (110 - 10)) [10; 20; 30; 110] = [0; 25; 51; 255].
Proof.
  split; [|reflexivity].
  apply (contrast_stretch_spec
           (mk_ndarray uint8 [2; 2]%nat [10; 20; 30; 110]) 10 110).
  - reflexivity.
  - repeat constructor.
  - reflexivity.
  - reflexivity.
Defined.

Lemma apply_photometric_range ds w :
  uint8_samples w -> uint8_samples (apply_photometric ds w).
Proof.
  unfold uint8_samples, apply_photometric. intros H.
  destruct (PhotometricInterpretation ds) as [pi|]; [|exact H].
  destruct (String.eqb pi "MONOCHROME1"); [|exact H].
  apply Forall_map. eapply Forall_impl; [|exact H].
  intros v Hv. cbv beta in *. rewrite bitwise_not_uint8 by lia. lia.
Qed.

Lemma windowed_samples_range lower upper values w :
  traverse (rescale_window lower upper) values = Ok w -> uint8_samples w.
Proof.
  intros H. unfold uint8_samples.
  apply (traverse_Forall (rescale_window lower upper) (fun v => 0 <= v <= 255))
    with (l := values); [|exact H].
  intros q z Hz. pose proof (rescale_window_uint8 lower upper q z Hz). lia.
Qed.

(** X18. For a grayscale input both strategies produce an output raster
    of dtype uint8 whose samples all lie in 0..255; in the standard
    strategy it has the shape of the working array and is also the
    detection raster. *)
Theorem normalized_output_is_uint8
        (apply_voi_lut : ndarray -> Dataset -> result (list Q))
        (clahe_apply : ndarray -> result ndarray)
        (ds : Dataset) (transform_mode : string)
        (pixel_array out detection_raster : ndarray) :
  normalize apply_voi_lut clahe_apply ds transform_mode None pixel_array
    = Ok (out, detection_raster) ->
  dtype_of out = uint8 /\ uint8_samples (data out) /\
  (transform_mode = "standard"%string ->
   shape out = shape pixel_array /\ detection_raster = out).
Proof.
  unfold normalize.
  destruct (String.eqb transform_mode "standard") eqn:Em; intros H.
  - apply bind_Ok in H. destruct H as (img & Himg & [= <- <-]).
    unfold standard_image_8bit in Himg.
    apply bind_Ok in Himg. destruct Himg as (w & Hw & [= <-]). simpl.
    split; [reflexivity|]. split; [|intros _; split; reflexivity].
    apply apply_photometric_range.
    unfold standard_windowed in Hw.
    apply bind_Ok in Hw. destruct Hw as (cw & _ & Hw).
    destruct (window_bounds cw) as [lower upper].
    eapply windowed_samples_range; eassumption.
  - apply bind_Ok in H. destruct H as (normalized & Hn & H).
    apply bind_Ok in H. destruct H as (enhanced & _ & H).
    apply bind_Ok in H. destruct H as (stretched & _ & [= <- <-]).
    unfold clahe_normalized in Hn.
    apply bind_Ok in Hn. destruct Hn as (nw & Hnw & [= <-]). simpl.
    split; [reflexivity|]. split.
    + apply apply_photometric_range.
      unfold clahe_windowed in Hnw.
      apply bind_Ok in Hnw. destruct Hnw as (p8 & _ & Hnw).
      apply bind_Ok in Hnw. destruct Hnw as (ca & _ & Hnw).
      destruct (window_bounds (clahe_window ds)) as [lower upper].
      apply bind_Ok in Hnw. destruct Hnw as (d & Hd & [= <-]). simpl.
      eapply windowed_samples_range; eassumption.
    + intros ->. discriminate Em.
Qed.

Lemma normalized_output_is_uint8_witness :
  let ds := mk_dataset (Some 1) (Some 16) None None (Some "MONOCHROME2"%string) in
  let pixel_array := mk_ndarray uint16 [2; 2]%nat [0; 20000; 20500; 65535] in
  let out := mk_ndarray uint8 [2; 2]%nat [0; 76; 78; 254] in
  let detection_raster := mk_ndarray uint8 [2; 2]%nat [0; 76; 78; 255] in
  normalize (fun _ _ => Raise ValueError) (fun a => Ok a) ds "clahe" None
            pixel_array = Ok (out, detection_raster) /\
  dtype_of out = uint8 /\ uint8_samples (data out) /\
  ("clahe"%string = "standard"%string ->
   shape out = shape pixel_array /\ detection_raster = out).
Proof.
  split; [reflexivity|].
  apply (normalized_output_is_uint8 (fun _ _ => Raise ValueError) (fun a => Ok a)
           (mk_dataset (Some 1) (Some 16) None None (Some "MONOCHROME2"%string))
           "clahe"
           (mk_ndarray uint16 [2; 2]%nat [0; 20000; 20500; 65535])).
  reflexivity.
Defined.

Lemma first_frame_well_formed a n rest :
  shape a = S n :: rest -> well_formed a ->
  exists frame,
    first_frame a = Ok frame /\ shape frame = rest /\
    dtype_of frame = dtype_of a /\ well_formed frame /\
    data frame = firstn (size_of rest) (data a).
Proof.
  intros Hs Hwf. unfold first_frame. rewrite Hs.
  eexists. split; [reflexivity|]. simpl. repeat split.
  unfold well_formed in *. simpl. rewrite Hs in Hwf. simpl in Hwf.
  rewrite length_firstn. lia.
Qed.

(** X19. For a grayscale dataset (SamplesPerPixel absent or at most 1)
    with more than two axes and at least one frame, the frame selector
    returns frame 0: the shape without its first axis, the first
    [size] samples of the buffer, a well-formed array, and no separate
    output image; [cv2.cvtColor] is not consulted. *)
Theorem multiframe_grayscale_takes_frame_0
        (cvtColor : color_code -> ndarray -> result ndarray)
        (ds : Dataset) (pixel_array : ndarray) (n : nat) (rest : list nat) :
  samples_per_pixel ds <= 1 ->
  shape pixel_array = S n :: rest -> (2 <= length rest)%nat ->
  well_formed pixel_array ->
  exists frame,
    select_frame cvtColor ds pixel_array = Ok (None, frame) /\
    shape frame = rest /\ dtype_of frame = dtype_of pixel_array /\
    well_formed frame /\
    data frame = firstn (size_of rest) (data pixel_array).
Proof.
  intros Hspp Hs Hlen Hwf. unfold select_frame.
  destruct (Z.ltb_spec 1 (samples_per_pixel ds)); [lia|].
  unfold ndim. rewrite Hs. simpl length.
  destruct (Nat.ltb_spec 2 (S (length rest))); [|lia].
  destruct (first_frame_well_formed pixel_array n rest Hs Hwf)
    as (frame & Hf & H1 & H2 & H3 & H4).
  exists frame. rewrite Hf. simpl. repeat split; assumption.
Qed.

Lemma multiframe_grayscale_takes_frame_0_witness :
  let ds := mk_dataset None (Some 8) None None (Some "MONOCHROME2"%string) in
  let pixel_array := mk_ndarray uint8 [2; 1; 2]%nat [1; 2; 3; 4] in
  exists frame,
    select_frame (fun _ _ => Raise cv2_error) ds pixel_array = Ok (None, frame) /\
    shape frame = [1; 2]%nat /\ dtype_of frame = dtype_of pixel_array /\
    well_formed frame /\
    data frame = firstn (size_of [1; 2]%nat) (data pixel_array).
Proof.
  apply (multiframe_grayscale_takes_frame_0 (fun _ _ => Raise cv2_error)
           (mk_dataset None (Some 8) None None (Some "MONOCHROME2"%string))
           (mk_ndarray uint8 [2; 1; 2]%nat [1; 2; 3; 4]) 1%nat [1; 2]%nat).
  - unfold samples_per_pixel. simpl. lia.
  - reflexivity.
  - simpl. lia.
  - reflexivity.
Defined.

End NormalizerProperties.

Module ParserProperties.
Import Py PyFacts Numpy NumpyFacts BoxMerger Detection Redactor OcrResults.
Import RedactorFacts Vocabulary.

Lemma mapi_nth_error {A B} (f : nat -> A -> B) l i :
  nth_error (mapi f l) i = option_map (f i) (nth_error l i).
Proof. unfold mapi. now rewrite mapi_from_nth_error. Qed.

Lemma mapi_map_text {A} (f : nat -> string -> A) (g : A -> string) l :
  (forall i t, g (f i t) = t) -> map g (mapi f l) = l.
Proof.
  intros H. apply nth_error_ext. intros i.
  rewrite nth_error_map, mapi_nth_error.
  destruct (nth_error l i); simpl; [now rewrite H|reflexivity].
Qed.

(** X20. For a dict-style result the parser emits exactly one detection
    per element of [rec_texts], in order and with that text, whatever the
    lengths of [rec_scores], [rec_polys] and [rec_boxes]; a text without
    a score gets the confidence 0.0, and a text with neither polygon nor
    box gets the bounding box [None]. *)
Theorem dict_result_one_detection_per_text (per_image : ocr_dict) :
  let detections := _parse_ocr_results (FirstIsDict per_image) in
  map text_of detections = or_empty (rec_texts per_image) /\
  forall i d,
    nth_error detections i = Some d ->
    (nth_error (or_empty (rec_scores per_image)) i = None -> snd d = 0%Q) /\
    (nth_error (or_empty (rec_polys per_image)) i = None ->
     (forall rows, rec_boxes per_image = Some rows -> nth_error rows i = None) ->
     fst (fst d) = NoBox).
Proof.
  simpl. unfold parse_dict. split.
  - apply mapi_map_text. reflexivity.
  - intros i d Hd. rewrite mapi_nth_error in Hd.
    destruct (nth_error (or_empty (rec_texts per_image)) i) as [t|];
      [|discriminate].
    simpl in Hd. injection Hd as <-. simpl. split.
    + now intros ->.
    + intros -> Hb. destruct (rec_boxes per_image) as [rows|]; [|reflexivity].
      now rewrite (Hb rows eq_refl).
Qed.

Lemma Qmin_inject_Z a b : Qmin (inject_Z a) (inject_Z b) = inject_Z (Z.min a b).
Proof.
  unfold Qmin, GenericMinMax.gmin, Qcompare, Z.min. simpl.
  rewrite !Z.mul_1_r. now destruct (a ?= b).
Qed.

Lemma Qmax_inject_Z a b : Qmax (inject_Z a) (inject_Z b) = inject_Z (Z.max a b).
Proof.
  unfold Qmax, GenericMinMax.gmax, Qcompare, Z.max. simpl.
  rewrite !Z.mul_1_r. now destruct (a ?= b).
Qed.

(** X21. An axis-aligned box of [rec_boxes] survives the detour through
    its four-corner polygon: for integer coordinates with
    [x_min < x_max] and [y_min < y_max] and a non-blank text, the redactor
    recovers the rectangle [(x_min, y_min, x_max - x_min, y_max - y_min)]. *)
Theorem rec_box_round_trip (x_min y_min x_max y_max : Z) (text : string) (score : Q) :
  strip_nonempty text = true -> x_min < x_max -> y_min < y_max ->
  detection_box
    (corners (inject_Z x_min, inject_Z y_min, inject_Z x_max, inject_Z y_max),
     text, score)
  = Some (x_min, y_min, x_max - x_min, y_max - y_min).
Proof.
  intros Ht Hx Hy. unfold detection_box, corners. rewrite Ht. simpl.
  rewrite !Qmin_inject_Z, !Qmax_inject_Z, !int_of_float_inject_Z.
  replace (Z.min (Z.min (Z.min x_min x_max) x_max) x_min) with x_min by lia.
  replace (Z.max (Z.max (Z.max x_min x_max) x_max) x_min) with x_max by lia.
  replace (Z.min (Z.min (Z.min y_min y_min) y_max) y_max) with y_min by lia.
  replace (Z.max (Z.max (Z.max y_min y_min) y_max) y_max) with y_max by lia.
  destruct (Z.ltb_spec 0 (x_max - x_min)); [|lia].
  destruct (Z.ltb_spec 0 (y_max - y_min)); [|lia].
  reflexivity.
Qed.

Lemma rec_box_round_trip_witness :
  strip_nonempty "DOB" = true /\ 50 < 200 /\ 400 < 430 /\
  detection_box
    (corners (inject_Z 50, inject_Z 400, inject_Z 200, inject_Z 430),
     "DOB"%string, 1%Q)
  = Some (50, 400, 200 - 50, 430 - 400).
Proof.
  split; [reflexivity|]. split; [lia|]. split; [lia|].
  apply (rec_box_round_trip 50 400 200 430 "DOB" 1); [reflexivity|lia|lia].
Defined.

Lemma parse_nothing r : nothing_parseable r -> _parse_ocr_results r = [].
Proof.
  assert (Hl : forall l, Forall (eq NotEntry) l -> flat_map parse_entry l = []).
  { induction 1 as [|e l <- _ IH]; simpl; [reflexivity|exact IH]. }
  destruct r as [|d|l|l]; simpl; intros H.
  - reflexivity.
  - unfold parse_dict. now rewrite H.
  - now apply Hl.
  - now apply Hl.
Qed.

(** X22. A result without any usable entry (a falsy result, a dict
    without texts, a list none of whose elements is a sequence of at least
    two elements) is not an error: it parses to no detections, the
    extracted text is the placeholder and redaction returns the image
    unchanged. *)
Theorem unparseable_results_fail_open (r : results) (image : ndarray) (padding : Z) :
  nothing_parseable r ->
  _parse_ocr_results r = [] /\
  extracted_text (_parse_ocr_results r) = "(No text detected)"%string /\
  redact_text_regions image (Some (_parse_ocr_results r)) padding = Ok image.
Proof.
  intros H. rewrite (parse_nothing r H). repeat split.
Qed.

Lemma unparseable_results_fail_open_witness :
  let r := FirstIsOther [NotEntry; NotEntry] in
  let image := mk_ndarray uint8 [1; 2]%nat [0; 10] in
  nothing_parseable r /\
  _parse_ocr_results r = [] /\
  extracted_text (_parse_ocr_results r) = "(No text detected)"%string /\
  redact_text_regions image (Some (_parse_ocr_results r)) 10 = Ok image.
Proof.
  assert (H : nothing_parseable (FirstIsOther [NotEntry; NotEntry]))
    by (repeat constructor).
  split; [exact H|].
  exact (unparseable_results_fail_open (FirstIsOther [NotEntry; NotEntry])
           (mk_ndarray uint8 [1; 2]%nat [0; 10]) 10 H).
Defined.

(** X23. Round trip of the legacy form: detections written as entries
    [(bbox, (text, confidence))] are parsed back unchanged and in order,
    whether the list is element 0 of the result or, after an element 0
    that is no sequence, the result itself. *)
Theorem legacy_round_trip (detections : list detection) :
  _parse_ocr_results (FirstIsList (map legacy_entry detections)) = detections /\
  _parse_ocr_results (FirstIsOther (map legacy_entry detections)) = detections.
Proof.
  assert (H : flat_map parse_entry (map legacy_entry detections) = detections).
  { induction detections as [|[[bb text] conf] l IH]; simpl; [reflexivity|].
    now rewrite IH. }
  split; simpl; exact H.
Qed.

(** X24. Round trip of the dict form: parallel collections of texts,
    scores and polygons of one length are parsed into the detections
    [(polygon, text, score)], index by index. *)
Theorem dict_round_trip (detections : list (list (Q * Q) * string * Q)) :
  _parse_ocr_results
    (FirstIsDict (polygon_dict (map (fun d => snd (fst d)) detections)
                               (map snd detections)
                               (map (fun d => fst (fst d)) detections)))
  = map (fun d => (Points (fst (fst d)), snd (fst d), snd d)) detections.
Proof.
  simpl. unfold parse_dict, polygon_dict. simpl.
  apply nth_error_ext. intros i.
  rewrite mapi_nth_error, !nth_error_map.
  destruct (nth_error detections i) as [[[poly text] score]|]; reflexivity.
Qed.

End ParserProperties.

Module DeviceProperties.
Import Py Device.

(** X25. Device selection: the GPU is the selected device only if Paddle
    reports CUDA, counts at least one device and the first
    [set_device('gpu')] call succeeds; [use_gpu] is false whenever the CPU
    is the selected device; and a device is selected whenever the CPU
    fallback call would succeed. *)
Theorem gpu_only_when_available
        (is_compiled_with_cuda : result bool) (device_count : result Z)
        (set_device : nat -> string -> result unit) :
  let s := select_device is_compiled_with_cuda device_count set_device in
  (device s = Some "gpu"%string ->
   is_compiled_with_cuda = Ok true /\
   (exists n, device_count = Ok n /\ 0 < n) /\
   set_device 0%nat "gpu"%string = Ok tt /\ use_gpu s = true) /\
  (device s = Some "cpu"%string -> use_gpu s = false) /\
  (set_device 1%nat "cpu"%string = Ok tt -> device s <> None).
Proof.
  unfold select_device.
  destruct is_compiled_with_cuda as [[|]|e]; simpl.
  - destruct device_count as [n|e]; simpl.
    + destruct (Z.ltb_spec 0 n) as [Hn|Hn]; simpl.
      * destruct (set_device 0%nat "gpu"%string) as [[]|e0] eqn:E0; simpl.
        -- repeat split; try discriminate. now exists n.
        -- destruct (set_device 1%nat "cpu"%string) as [[]|e1]; simpl;
             repeat split; discriminate.
      * destruct (set_device 0%nat "cpu"%string) as [[]|e0]; simpl;
          [repeat split; discriminate|].
        destruct (set_device 1%nat "cpu"%string) as [[]|e1]; simpl;
          repeat split; discriminate.
    + destruct (set_device 0%nat "cpu"%string) as [[]|e0]; simpl;
        [repeat split; discriminate|].
      destruct (set_device 1%nat "cpu"%string) as [[]|e1]; simpl;
        repeat split; discriminate.
  - destruct (set_device 0%nat "cpu"%string) as [[]|e0]; simpl;
      [repeat split; discriminate|].
    destruct (set_device 1%nat "cpu"%string) as [[]|e1]; simpl;
      repeat split; discriminate.
  - destruct (set_device 0%nat "cpu"%string) as [[]|e0]; simpl;
      [repeat split; discriminate|].
    destruct (set_device 1%nat "cpu"%string) as [[]|e1]; simpl;
      repeat split; discriminate.
Qed.

End DeviceProperties.

Module PipelineProperties.
Import Py PyFacts Numpy NumpyFacts Dicom BoxMerger Detection Redactor Pipeline.
Import RedactorFacts PipelineFacts Vocabulary.

(** X26. Whenever [main] completes, the post-redaction image has the
    shape, the dtype and the number of samples of the pre-redaction image. *)
Theorem main_keeps_geometry
        cvtColor apply_voi_lut clahe_apply ocr_detect
        (ds : Dataset) (pixel_array : ndarray) (transform : string)
        (pre post : ndarray) (text : string) :
  main cvtColor apply_voi_lut clahe_apply ocr_detect ds pixel_array transform
    = Ok (pre, post, text) ->
  shape post = shape pre /\ dtype_of post = dtype_of pre /\
  length (data post) = length (data pre).
Proof.
  unfold main. intros H.
  apply bind_Ok in H. destruct H as ([[t image] dets] & _ & H).
  apply bind_Ok in H. destruct H as (redacted & Hr & [= <- <- _]).
  exact (redact_preserves_geometry _ _ _ _ Hr).
Qed.

Lemma main_keeps_geometry_witness :
  let ds := mk_dataset (Some 1) (Some 8) None None (Some "MONOCHROME2"%string) in
  let pixel_array := mk_ndarray uint8 [3; 3]%nat [1; 2; 3; 4; 5; 6; 7; 8; 9] in
  let ocr := fun _ : ndarray =>
    Ok [(Points [(1, 1); (2, 1); (2, 2); (1, 2)]%Q, "a"%string, 1%Q)] in
  let pre := mk_ndarray uint8 [3; 3]%nat [0; 1; 2; 3; 4; 5; 6; 7; 8] in
  let post := mk_ndarray uint8 [3; 3]%nat [4; 4; 4; 4; 4; 4; 4; 4; 4] in
  main (fun _ a => Ok a) (fun _ _ => Raise ValueError) (fun a => Ok a) ocr
       ds pixel_array "clahe" = Ok (pre, post, "a"%string) /\
  shape post = shape pre /\ dtype_of post = dtype_of pre /\
  length (data post) = length (data pre).
Proof.
  split; [reflexivity|].
  apply (main_keeps_geometry (fun _ a => Ok a) (fun _ _ => Raise ValueError)
           (fun a => Ok a)
           (fun _ : ndarray =>
              Ok [(Points [(1, 1); (2, 1); (2, 2); (1, 2)]%Q, "a"%string, 1%Q)])
           (mk_dataset (Some 1) (Some 8) None None (Some "MONOCHROME2"%string))
           (mk_ndarray uint8 [3; 3]%nat [1; 2; 3; 4; 5; 6; 7; 8; 9])
           "clahe" _ _ "a").
  reflexivity.
Defined.

(** X27. When the detection adapter yields no detection, [main] saves
    the output raster unchanged as the post-redaction image and the
    placeholder as the text. *)
Theorem main_without_detections
        cvtColor apply_voi_lut clahe_apply ocr_detect
        (ds : Dataset) (pixel_array : ndarray) (transform : string)
        (text : string) (image : ndarray) :
  extract_text_from_dicom cvtColor apply_voi_lut clahe_apply ocr_detect
                          ds pixel_array transform = Ok (text, image, []) ->
  main cvtColor apply_voi_lut clahe_apply ocr_detect ds pixel_array transform
  = Ok (image, image, "(No text detected)"%string).
Proof.
  intros H.
  exact (proj2 (main_no_detections _ _ _ _ _ _ _ _ _ H)).
Qed.

Lemma main_without_detections_witness :
  let ds := mk_dataset (Some 1) (Some 8) None None (Some "MONOCHROME2"%string) in
  let pixel_array := mk_ndarray uint8 [1; 2]%nat [1; 200] in
  let image := mk_ndarray uint8 [1; 2]%nat [0; 199] in
  main (fun _ a => Ok a) (fun _ _ => Raise ValueError) (fun a => Ok a)
       (fun _ => Ok []) ds pixel_array "clahe"
  = Ok (image, image, "(No text detected)"%string).
Proof.
  apply (main_without_detections (fun _ a => Ok a) (fun _ _ => Raise ValueError)
           (fun a => Ok a) (fun _ => Ok [])
           (mk_dataset (Some 1) (Some 8) None None (Some "MONOCHROME2"%string))
           (mk_ndarray uint8 [1; 2]%nat [1; 200]) "clahe"
           "(No text detected)").
  reflexivity.
Defined.

Lemma strip_nonempty_not_empty s : strip_nonempty s = true -> s <> EmptyString.
Proof. intros H ->. discriminate H. Qed.

Lemma join_not_empty sep s rest : s <> EmptyString -> join sep (s :: rest) <> EmptyString.
Proof.
  intros Hs. simpl. destruct rest as [|s' rest]; [exact Hs|].
  destruct s as [|c s]; [congruence|]. discriminate.
Qed.

(** X28. The extracted text is never the empty string: it is the
    placeholder, or it begins with a recognised text that is not blank. *)
Theorem extracted_text_never_empty (primary_detections : list detection) :
  extracted_text primary_detections <> EmptyString.
Proof.
  unfold extracted_text.
  set (all_text := flat_map _ primary_detections).
  assert (H : Forall (fun s => strip_nonempty s = true) all_text).
  { unfold all_text. clear all_text.
    induction primary_detections as [|[[bb text] conf] l IH]; simpl;
      [constructor|].
    destruct (strip_nonempty text) eqn:E; simpl; [constructor; assumption|exact IH]. }
  destruct all_text as [|s rest]; [discriminate|].
  apply join_not_empty, strip_nonempty_not_empty.
  now inversion H.
Qed.

(** X29. Detections whose texts are all blank (empty or only white
    space) leave the extracted text at the placeholder. *)
Theorem blank_texts_give_placeholder (primary_detections : list detection) :
  Forall (fun d => strip_nonempty (text_of d) = false) primary_detections ->
  extracted_text primary_detections = "(No text detected)"%string.
Proof. apply extracted_text_blank. Qed.

Lemma blank_texts_give_placeholder_witness :
  let l := [(NoBox, " "%string, 1%Q); (NoBox, ""%string, 0%Q)] in
  Forall (fun d => strip_nonempty (text_of d) = false) l /\
  extracted_text l = "(No text detected)"%string.
Proof.
  assert (H : Forall (fun d => strip_nonempty (text_of d) = false)
                     [(NoBox, " "%string, 1%Q); (NoBox, ""%string, 0%Q)])
    by (repeat constructor).
  split; [exact H|].
  exact (blank_texts_give_placeholder _ H).
Defined.

(** X30. An empty grayscale pixel array makes [extract_text_from_dicom]
    raise ValueError (from [pixel_array.min()]) in either transform mode,
    before any normalization or detection. *)
Theorem empty_image_raises_ValueError
        cvtColor apply_voi_lut clahe_apply ocr_detect
        (ds : Dataset) (pixel_array : ndarray) (transform_mode : string) :
  samples_per_pixel ds <= 1 -> (ndim pixel_array <= 2)%nat ->
  data pixel_array = [] ->
  extract_text_from_dicom cvtColor apply_voi_lut clahe_apply ocr_detect
                          ds pixel_array transform_mode = Raise ValueError.
Proof.
  intros Hspp Hnd Hd. unfold extract_text_from_dicom, select_frame.
  destruct (Z.ltb_spec 1 (samples_per_pixel ds)); [lia|].
  destruct (Nat.ltb_spec 2 (ndim pixel_array)); [lia|].
  simpl. now rewrite Hd.
Qed.

Lemma empty_image_raises_ValueError_witness :
  let ds := mk_dataset (Some 1) (Some 8) None None (Some "MONOCHROME2"%string) in
  let pixel_array := mk_ndarray uint8 [0; 4]%nat [] in
  extract_text_from_dicom (fun _ a => Ok a) (fun _ _ => Raise ValueError)
                          (fun a => Ok a) (fun _ => Ok [])
                          ds pixel_array "standard" = Raise ValueError.
Proof.
  apply (empty_image_raises_ValueError (fun _ a => Ok a)
           (fun _ _ => Raise ValueError) (fun a => Ok a) (fun _ => Ok [])
           (mk_dataset (Some 1) (Some 8) None None (Some "MONOCHROME2"%string))
           (mk_ndarray uint8 [0; 4]%nat []) "standard").
  - unfold samples_per_pixel. simpl. lia.
  - unfold ndim. simpl. lia.
  - reflexivity.
Defined.

End PipelineProperties.

Module Float64MoreFacts.
Import Float64.

(** The full-range window in binary64: every sample of 0..255 gets the
    value that the rational model gives it. *)
Lemma full_range_window_binary64 :
  let '(lower, upper) := window_bounds 128 256 in
  forallb (fun n =>
             match astype_uint8
                     (rescale_window lower upper
                        (PrimFloat.of_uint63 (Uint63.of_Z (Z.of_nat n)))) with
             | Some z => z =? (if Z.of_nat n =? 0 then 0 else Z.of_nat n - 1)
             | None => false
             end) (seq 0 256) = true.
Proof. vm_compute. reflexivity. Qed.

End Float64MoreFacts.
